(** * A round-robin load balancer: backend pool, dispatcher and retry policy

    Shallow embedding of [main.go].  The Go program keeps one global
    [serverPool]; here every function takes the pool and returns the updated
    one.  A [*Backend] is a position in [backends] (the slice holds pointers,
    so a record is shared by everybody who holds its position).

    Conventions
    - [uint64] values are [Z] in [0, 2^64) with the wrap-around written out;
      [int] values that come from a request context are [Z] with the signed
      64-bit wrap-around written out.  The [int] loop variables of
      [GetNextPeer] stay below [2 * len(backends)]; a Go slice of
      pointers holds far fewer than [2^62] elements, so they are exact.
    - A Go run-time panic is the [Panic] result.
    - The mutexes of [Backend] and the atomic primitives of [sync/atomic]
      are modelled by their sequential meaning (one step each).
    - [url.URL] belongs to the library [net/url]: the type, its method
      [String] and its field [Host] are parameters of the development
      ([NetURL]), so every general statement holds whatever [String]
      prints.  The worked examples use four plain addresses.
    - [log] and [fmt] output is not modelled. *)

From Stdlib Require Import ZArith Lia.
From stdpp Require Import base list strings.

Local Open Scope Z_scope.

(** ** Results of fallible code *)

Inductive result (A : Type) : Type :=
| Ok (a : A)
| Panic (msg : string).
Arguments Ok {A} a.
Arguments Panic {A} msg.

Definition divide_error : string := "runtime error: integer divide by zero".
Definition index_error : string := "runtime error: index out of range".

(** ** The library type [url.URL]

    What the program uses of [net/url]: the type, [u.String()], which
    [MarkBackendStatus] compares, and [u.Host], which the prober dials. *)
Class NetURL : Type := {
  url_URL : Type;
  URL_String : url_URL -> string;
  Host : url_URL -> string
}.

Section Model.

Context {N : NetURL}.

(** ** Data model *)

(** [httputil.ReverseProxy] as [main] builds it: a single-host proxy for
    [serverUrl], whose [ErrorHandler] closure captures [serverUrl] and the
    proxy itself. *)
Record ReverseProxy_t : Type := mkProxy {
  serverUrl : url_URL
}.

Record Backend : Type := mkBackend {
  URL : url_URL;
  Alive : bool;
  ReverseProxy : ReverseProxy_t
}.

Record ServerPool : Type := mkServerPool {
  backends : list Backend;
  current : Z
}.

(** The zero value of the package variable [serverPool]. *)
Definition serverPool_zero : ServerPool :=
  {| backends := []; current := 0 |}.

Definition uint64_mod : Z := 2 ^ 64.

Definition len (s : ServerPool) : Z := Z.of_nat (length (backends s)).

(** [xs[i]] for a Go [int] index: out of range panics. *)
Definition index {A} (xs : list A) (i : Z) : option A :=
  if i <? 0 then None else xs !! Z.to_nat i.

(** ** Backend methods *)

Definition SetAlive (b : Backend) (alive : bool) : Backend :=
  {| URL := URL b; Alive := alive; ReverseProxy := ReverseProxy b |}.

Definition IsAlive (b : Backend) : bool := Alive b.

(** ** Pool methods *)

(** [for _, b := range s.backends { if b.URL.String() == backendUrl.String()
    { b.SetAlive(alive); break } }] *)
Fixpoint MarkBackendStatus_range (bs : list Backend) (backendUrl : url_URL)
    (alive : bool) : list Backend :=
  match bs with
  | [] => []
  | b :: rest =>
      if String.eqb (URL_String (URL b)) (URL_String backendUrl)
      then SetAlive b alive :: rest
      else b :: MarkBackendStatus_range rest backendUrl alive
  end.

Definition MarkBackendStatus (s : ServerPool) (backendUrl : url_URL)
    (alive : bool) : ServerPool :=
  {| backends := MarkBackendStatus_range (backends s) backendUrl alive;
     current := current s |}.

(** [atomic.AddUint64(&s.current, delta)]: the new value is stored and
    returned. *)
Definition atomic_AddUint64 (s : ServerPool) (delta : Z) : ServerPool * Z :=
  let v := (current s + delta) mod uint64_mod in
  ({| backends := backends s; current := v |}, v).

Definition atomic_StoreUint64 (s : ServerPool) (v : Z) : ServerPool :=
  {| backends := backends s; current := v |}.

(** [int(atomic.AddUint64(&s.current, 1) % uint64(len(s.backends)))]: the
    addition happens first, the remainder panics on an empty slice. *)
Definition NextIndex (s : ServerPool) : ServerPool * result Z :=
  let '(s1, v) := atomic_AddUint64 s 1 in
  if len s1 =? 0 then (s1, Panic divide_error)
  else (s1, Ok (v mod len s1)).

(** The loop [for i := next; i < l; i++] of [GetNextPeer], by the number of
    iterations left ([l - i]).  The result is the position of the backend
    returned, or [None] for [nil]. *)
Fixpoint GetNextPeer_scan (s : ServerPool) (next i : Z) (left : nat)
    : ServerPool * result (option nat) :=
  match left with
  | O => (s, Ok None)
  | S left' =>
      let idx := Z.rem i (len s) in
      match index (backends s) idx with
      | None => (s, Panic index_error)
      | Some b =>
          if IsAlive b then
            ((if negb (i =? next) then atomic_StoreUint64 s idx else s),
             Ok (Some (Z.to_nat idx)))
          else GetNextPeer_scan s next (i + 1) left'
      end
  end.

Definition GetNextPeer (s : ServerPool) : ServerPool * result (option nat) :=
  match NextIndex s with
  | (s1, Panic msg) => (s1, Panic msg)
  | (s1, Ok next) =>
      let l := len s1 + next in
      GetNextPeer_scan s1 next next (Z.to_nat (l - next))
  end.

(** [k] selections one after the other; the positions returned, in order. *)
Fixpoint GetNextPeer_times (k : nat) (s : ServerPool)
    : ServerPool * result (list (option nat)) :=
  match k with
  | O => (s, Ok [])
  | S k' =>
      match GetNextPeer s with
      | (s1, Panic msg) => (s1, Panic msg)
      | (s1, Ok p) =>
          match GetNextPeer_times k' s1 with
          | (s2, Panic msg) => (s2, Panic msg)
          | (s2, Ok ps) => (s2, Ok (p :: ps))
          end
      end
  end.

(** ** The selection as the specification words it

    Start at [cursor mod n] after the increment, look at [n] consecutive
    positions wrapping around, take the first one that is alive. *)

Definition alive_at (s : ServerPool) (i : nat) : bool :=
  match backends s !! i with
  | Some b => Alive b
  | None => false
  end.

Definition start_index (s : ServerPool) : Z :=
  ((current s + 1) mod uint64_mod) mod len s.

Definition rotation (start n : nat) : list nat :=
  map (fun k => (start + k) mod n)%nat (seq 0 n).

Definition nextLivePeer_spec (s : ServerPool) : option nat :=
  List.find (alive_at s)
    (rotation (Z.to_nat (start_index s)) (length (backends s))).

Definition no_backend_alive (s : ServerPool) : Prop :=
  forall b, b ∈ backends s -> Alive b = false.

Definition fully_alive (s : ServerPool) : Prop :=
  forall b, b ∈ backends s -> Alive b = true.

(** A record for the address [u], its proxy forwarding to [u]. *)
Definition backend_of (u : url_URL) (alive : bool) : Backend :=
  {| URL := u; Alive := alive; ReverseProxy := mkProxy u |}.

(** ** Time and observable events *)

(** [time.Duration] counts nanoseconds. *)
Definition time_Millisecond : Z := 1000000.
Definition time_Second : Z := 1000 * time_Millisecond.

(** A request context is a chain of [WithValue] nodes, innermost first.
    The two keys are the [iota] constants of the source. *)
Definition Attempts : Z := 0.
Definition Retry : Z := 1.

Definition Ctx : Type := list (Z * Z).

Definition context_WithValue (parent : Ctx) (key val : Z) : Ctx :=
  (key, val) :: parent.

Fixpoint context_Value (c : Ctx) (key : Z) : option Z :=
  match c with
  | [] => None
  | (k, v) :: parent => if k =? key then Some v else context_Value parent key
  end.

Record Request : Type := mkRequest {
  Context_of : Ctx
}.

Definition WithContext (r : Request) (c : Ctx) : Request :=
  {| Context_of := c |}.

(** The request the HTTP server hands to the handler: an empty context. *)
Definition fresh_request : Request := {| Context_of := [] |}.

Inductive response : Type :=
| HttpError (body : string) (code : Z)
| UpstreamReply (target : url_URL).

Definition StatusServiceUnavailable : Z := 503.

Inductive event : Type :=
| EvDial (network address : string) (timeout : Z)
| EvConnClose (address : string)
| EvDispatch (c : Ctx)
| EvGetNextPeer (peer : option nat)
| EvRoundTrip (target : url_URL) (c : Ctx)
| EvAfter (d : Z)
| EvMarkBackendStatus (u : url_URL) (alive : bool).

(** Signed 64-bit addition of Go's [int]. *)
Definition int_add (x y : Z) : Z :=
  let z := x + y in
  if z >=? 2 ^ 63 then z - 2 ^ 64
  else if z <? - 2 ^ 63 then z + 2 ^ 64
  else z.

Definition GetRetryFromContext (r : Request) : Z :=
  match context_Value (Context_of r) Retry with
  | Some retry => retry
  | None => 0
  end.

Definition GetAttemptsFromContext (r : Request) : Z :=
  match context_Value (Context_of r) Attempts with
  | Some attemps => attemps
  | None => 1
  end.

(** ** Health prober *)

Section Prober.

(** [net.DialTimeout]: the outcome of the [k]-th dial of the process, given
    its arguments; [None] is a connection, [Some e] an error. *)
Variable DialTimeout : nat -> string -> string -> Z -> option string.

Definition isBackendAlive (k : nat) (u : url_URL) : bool * list event :=
  let timeout := 2 * time_Second in
  match DialTimeout k "tcp" (Host u) timeout with
  | Some err => (false, [EvDial "tcp" (Host u) timeout])
  | None => (true, [EvDial "tcp" (Host u) timeout; EvConnClose (Host u)])
  end.

(** [for _, b := range s.backends { alive := isBackendAlive(b.URL);
    b.SetAlive(alive) ... }]; [k] counts the dials made so far. *)
Fixpoint HealthCheck_range (k : nat) (bs : list Backend)
    : list Backend * list event :=
  match bs with
  | [] => ([], [])
  | b :: rest =>
      let '(alive, ev) := isBackendAlive k (URL b) in
      let '(rest', evs) := HealthCheck_range (S k) rest in
      (SetAlive b alive :: rest', ev ++ evs)
  end.

Definition HealthCheck (k : nat) (s : ServerPool) : ServerPool * list event :=
  let '(bs, evs) := HealthCheck_range k (backends s) in
  ({| backends := bs; current := current s |}, evs).

End Prober.

(** ** Dispatcher and retry policy

    [lb], [proxy.ServeHTTP] and [proxy.ErrorHandler] call each other in tail
    position, so a request is a chain of calls run one after the other. *)

Inductive call : Type :=
| Call_lb (r : Request)
| Call_ServeHTTP (p : ReverseProxy_t) (r : Request)
| Call_ErrorHandler (p : ReverseProxy_t) (r : Request).

Inductive next : Type :=
| Tail (c : call)
| Return
| Crash (msg : string).

Record World : Type := mkWorld {
  pool : ServerPool;
  written : option response;
  trace : list event;
  trips : nat
}.

Definition set_pool (w : World) (s : ServerPool) : World :=
  {| pool := s; written := written w; trace := trace w; trips := trips w |}.

Definition emit (w : World) (e : event) : World :=
  {| pool := pool w; written := written w; trace := trace w ++ [e];
     trips := trips w |}.

(** [http.Error(w, body, code)]; a reply already written stays. *)
Definition http_Error (w : World) (body : string) (code : Z) : World :=
  {| pool := pool w;
     written := match written w with
                | Some x => Some x
                | None => Some (HttpError body code)
                end;
     trace := trace w; trips := trips w |}.

Definition nil_error : string :=
  "runtime error: invalid memory address or nil pointer dereference".

Section Dispatch.

(** Whether the [t]-th round trip of the process, to [target], succeeds. *)
Variable upstream : nat -> url_URL -> bool.

Definition lb (r : Request) (w : World) : World * next :=
  let w := emit w (EvDispatch (Context_of r)) in
  let attempts := GetAttemptsFromContext r in
  if attempts >? 3 then
    (http_Error w "servie not available" StatusServiceUnavailable, Return)
  else
    match GetNextPeer (pool w) with
    | (s1, Panic msg) => (set_pool w s1, Crash msg)
    | (s1, Ok peer) =>
        let w := emit (set_pool w s1) (EvGetNextPeer peer) in
        match peer with
        | None => (w, Return)
        | Some i =>
            match backends s1 !! i with
            | Some b => (w, Tail (Call_ServeHTTP (ReverseProxy b) r))
            | None => (w, Crash nil_error)
            end
        end
    end.

(** [proxy.ServeHTTP(w, r)]: one round trip to the proxy's target; the
    reply is copied to the client, a failure goes to the error handler. *)
Definition ServeHTTP (p : ReverseProxy_t) (r : Request) (w : World)
    : World * next :=
  let t := trips w in
  let w := emit w (EvRoundTrip (serverUrl p) (Context_of r)) in
  let w := {| pool := pool w; written := written w; trace := trace w;
              trips := S t |} in
  if upstream t (serverUrl p) then
    ({| pool := pool w;
        written := match written w with
                   | Some x => Some x
                   | None => Some (UpstreamReply (serverUrl p))
                   end;
        trace := trace w; trips := trips w |}, Return)
  else (w, Tail (Call_ErrorHandler p r)).

(** The closure [main] installs as [proxy.ErrorHandler]. *)
Definition ErrorHandler (p : ReverseProxy_t) (request : Request) (w : World)
    : World * next :=
  let retries := GetRetryFromContext request in
  if retries <? 3 then
    let w := emit w (EvAfter (10 * time_Millisecond)) in
    let ctx := context_WithValue (Context_of request) Retry
                 (int_add retries 1) in
    (w, Tail (Call_ServeHTTP p (WithContext request ctx)))
  else
    let w := emit (set_pool w (MarkBackendStatus (pool w) (serverUrl p) false))
               (EvMarkBackendStatus (serverUrl p) false) in
    let attempts := GetAttemptsFromContext request in
    let ctx := context_WithValue (Context_of request) Attempts
                 (int_add attempts 1) in
    (w, Tail (Call_lb (WithContext request ctx))).

Definition step (c : call) (w : World) : World * next :=
  match c with
  | Call_lb r => lb r w
  | Call_ServeHTTP p r => ServeHTTP p r w
  | Call_ErrorHandler p r => ErrorHandler p r w
  end.

(** The call chain of one request; [None] when [fuel] calls were not
    enough. *)
Fixpoint run (fuel : nat) (c : call) (w : World)
    : World * option (result unit) :=
  match fuel with
  | O => (w, None)
  | S fuel' =>
      match step c w with
      | (w1, Tail c1) => run fuel' c1 w1
      | (w1, Return) => (w1, Some (Ok tt))
      | (w1, Crash msg) => (w1, Some (Panic msg))
      end
  end.

End Dispatch.

Definition world_of (s : ServerPool) : World :=
  {| pool := s; written := None; trace := []; trips := 0 |}.

(** An upstream that fails every round trip. *)
Definition all_down : nat -> url_URL -> bool := fun _ _ => false.

(** ** Start-up *)

Fixpoint strings_Split_comma (s : string) : list string :=
  match s with
  | EmptyString => [EmptyString]
  | String c rest =>
      if String.eqb (String c EmptyString) "," then EmptyString :: strings_Split_comma rest
      else match strings_Split_comma rest with
           | [] => [String c EmptyString]
           | tok :: toks => String c tok :: toks
           end
  end.

Inductive startup : Type :=
| Fatal (msg : string)
| Serving (s : ServerPool) (port : Z) (handler : ReverseProxy_t)
| Exited (s : ServerPool).

Section Startup.

(** [url.Parse]: [None] is an error. *)
Variable url_Parse : string -> option url_URL.
(** [server.ListenAndServe()]: [None] while it serves (it does not
    return), [Some e] when it returns the error [e]. *)
Variable ListenAndServe : Z -> option string.

(** The body of [for _, tok := range tokens] in [main], run on the first
    token: it parses the token, builds the proxy with its error handler,
    starts the prober and serves.  [serverPool] is not assigned. *)
Definition main_range (tokens : list string) (port : Z) (s : ServerPool)
    : startup :=
  match tokens with
  | [] => Exited s
  | tok :: _ =>
      match url_Parse tok with
      | None => Fatal "parse error"
      | Some serverUrl =>
          let proxy := mkProxy serverUrl in
          match ListenAndServe port with
          | Some err => Fatal err
          | None => Serving s port proxy
          end
      end
  end.

Definition main (serverList : string) (port : Z) : startup :=
  if (String.length serverList =? 0)%nat then
    Fatal "Please provide one or more backends to load balance"
  else
    let tokens := strings_Split_comma serverList in
    main_range tokens port serverPool_zero.

End Startup.

(** ** Properties the claims are stated with *)

(** The proxy of every record forwards to the record's own address. *)
Definition registered (s : ServerPool) : Prop :=
  forall b, b ∈ backends s -> serverUrl (ReverseProxy b) = URL b.

(** No two records print the same address ([URL.String]). *)
Definition distinct_addresses (s : ServerPool) : Prop :=
  NoDup (map (fun b => URL_String (URL b)) (backends s)).

Definition alive_count (s : ServerPool) : nat :=
  length (filter (fun b => Alive b = true) (backends s)).

(** The pool after the atomic increment of [NextIndex]. *)
Definition incremented (s : ServerPool) : ServerPool :=
  {| backends := backends s; current := (current s + 1) mod uint64_mod |}.

(** The offsets the scan looks at, and the first alive one. *)
Definition first_alive_offset (s : ServerPool) : option nat :=
  List.find
    (fun j => alive_at s
                ((Z.to_nat (start_index s) + j) mod length (backends s)))
    (seq 0 (length (backends s))).

Definition position_of (s : ServerPool) (j : nat) : nat :=
  ((Z.to_nat (start_index s) + j) mod length (backends s))%nat.

(** [r] is the first alive position met from [start], going around the
    pool once. *)
Definition first_alive_from (s : ServerPool) (start : nat) (r : option nat)
    : Prop :=
  let n := length (backends s) in
  match r with
  | Some p =>
      exists j, (j < n)%nat /\ p = ((start + j) mod n)%nat /\
                alive_at s p = true /\
                forall j', (j' < j)%nat ->
                           alive_at s ((start + j') mod n) = false
  | None =>
      forall j, (j < n)%nat -> alive_at s ((start + j) mod n) = false
  end.

(** [n] selections in a row return every position once. *)
Definition round_robin_coverage (s : ServerPool) : Prop :=
  exists l,
    snd (GetNextPeer_times (length (backends s)) s) = Ok (map Some l) /\
    l ≡ₚ seq 0 (length (backends s)).

(** One selection does not make the cursor smaller. *)
Definition cursor_not_decreased (s : ServerPool) : Prop :=
  current s <= current (fst (GetNextPeer s)).

Definition is_uint64 (v : Z) : Prop := 0 <= v < 2 ^ 64.

(** The dials among the events, with their arguments. *)
Definition dials (evs : list event) : list (string * string * Z) :=
  omap (fun e => match e with
                 | EvDial network address timeout =>
                     Some (network, address, timeout)
                 | _ => None
                 end) evs.

(** Projections of a trace: the peers selected, the targets of the round
    trips, the waits. *)
Definition selections (evs : list event) : list (option nat) :=
  omap (fun e => match e with EvGetNextPeer p => Some p | _ => None end) evs.

Definition round_trips (evs : list event) : list url_URL :=
  omap (fun e => match e with EvRoundTrip u _ => Some u | _ => None end) evs.

Definition backoffs (evs : list event) : list Z :=
  omap (fun e => match e with EvAfter d => Some d | _ => None end) evs.

Definition unavailable : response :=
  HttpError "servie not available" StatusServiceUnavailable.

(** A fresh request on pool [s] ends with the service-unavailable reply. *)
Definition answered_unavailable (upstream : nat -> url_URL -> bool)
    (s : ServerPool) : Prop :=
  exists fuel w,
    run upstream fuel (Call_lb fresh_request) (world_of s) = (w, Some (Ok tt))
    /\ written w = Some unavailable.

(** ** Measures of a call chain *)

(** What a call chain can still do from a call: attempts and retries left
    under the two caps, and from them the calls, round trips and waits. *)
Definition attempts_left (r : Request) : nat :=
  Z.to_nat (4 - GetAttemptsFromContext r).

Definition retries_left (r : Request) : nat :=
  Z.to_nat (3 - GetRetryFromContext r).

Definition call_budget (c : call) : nat :=
  match c with
  | Call_lb r =>
      if GetAttemptsFromContext r >? 3 then 1
      else 3 * attempts_left r + 2 * retries_left r + 1
  | Call_ServeHTTP _ r => 3 * attempts_left r + 2 * retries_left r
  | Call_ErrorHandler _ r => 3 * attempts_left r + 2 * retries_left r - 1
  end%nat.

Definition trip_budget (c : call) : nat :=
  match c with
  | Call_lb r =>
      if GetAttemptsFromContext r >? 3 then 0
      else attempts_left r + retries_left r
  | Call_ServeHTTP _ r => attempts_left r + retries_left r
  | Call_ErrorHandler _ r => attempts_left r + retries_left r - 1
  end%nat.

Definition wait_budget (c : call) : nat :=
  match c with
  | Call_lb r => if GetAttemptsFromContext r >? 3 then 0%nat else retries_left r
  | Call_ServeHTTP _ r => retries_left r
  | Call_ErrorHandler _ r => retries_left r
  end.

(** A proxy call is only made for a request under the attempts cap. *)
Definition under_cap (c : call) : Prop :=
  match c with
  | Call_lb _ => True
  | Call_ServeHTTP _ r => GetAttemptsFromContext r <= 3
  | Call_ErrorHandler _ r => GetAttemptsFromContext r <= 3
  end.

(** [healthCheck]: the loop [for { select { case <-t.C: ... } }] on the
    ticker of two minutes, over its first [ticks] firings; each firing runs
    one sweep.  [k] dials were made before. *)
Fixpoint healthCheck (Dial : nat -> string -> string -> Z -> option string)
    (ticks k : nat) (s : ServerPool) : ServerPool * list event :=
  match ticks with
  | O => (s, [])
  | S ticks' =>
      let '(s1, evs) := HealthCheck Dial k s in
      let '(s2, evs') :=
        healthCheck Dial ticks' (k + length (backends s)) s1 in
      (s2, evs ++ evs')
  end.

(** The addresses and proxies of a pool, without the flags. *)
Definition records (s : ServerPool) : list (url_URL * ReverseProxy_t) :=
  map (fun b => (URL b, ReverseProxy b)) (backends s).

Fixpoint no_comma (s : string) : bool :=
  match s with
  | EmptyString => true
  | String c rest =>
      negb (String.eqb (String c EmptyString) ",") && no_comma rest
  end.

(** The connections closed among the events. *)
Definition closes (evs : list event) : list string :=
  omap (fun e => match e with EvConnClose a => Some a | _ => None end) evs.

End Model.

(** ** Sample addresses and pools

    Four addresses as [url.Parse] returns them for the tokens
    [http://localhost:3031], [http://localhost:3032], [http://localhost:3033]
    and [http://localhost:3039]: what [String] prints for each, and its
    [Host]. *)
Inductive sample_URL : Type :=
| localhost_3031
| localhost_3032
| localhost_3033
| localhost_3039.

Definition sample_String (u : sample_URL) : string :=
  match u with
  | localhost_3031 => "http://localhost:3031"
  | localhost_3032 => "http://localhost:3032"
  | localhost_3033 => "http://localhost:3033"
  | localhost_3039 => "http://localhost:3039"
  end.

Definition sample_Host (u : sample_URL) : string :=
  match u with
  | localhost_3031 => "localhost:3031"
  | localhost_3032 => "localhost:3032"
  | localhost_3033 => "localhost:3033"
  | localhost_3039 => "localhost:3039"
  end.

Definition sample_net : NetURL :=
  {| url_URL := sample_URL;
     URL_String := sample_String;
     Host := sample_Host |}.

Section Samples.

#[local] Existing Instance sample_net.

Definition u1 : url_URL := localhost_3031.
Definition u2 : url_URL := localhost_3032.
Definition u3 : url_URL := localhost_3033.

Definition u9 : url_URL := localhost_3039.

Definition pool3 (a1 a2 a3 : bool) (c : Z) : ServerPool :=
  {| backends := [backend_of u1 a1; backend_of u2 a2; backend_of u3 a3];
     current := c |}.

Definition pool1 (c : Z) : ServerPool :=
  {| backends := [backend_of u1 true]; current := c |}.

Definition pool2 (c : Z) : ServerPool :=
  {| backends := [backend_of u1 true; backend_of u2 true]; current := c |}.

(** [url.Parse] on the tokens of the four addresses; any other token is
    refused. *)
Definition parse_http (tok : string) : option url_URL :=
  if String.eqb tok "http://localhost:3031" then Some u1
  else if String.eqb tok "http://localhost:3032" then Some u2
  else if String.eqb tok "http://localhost:3033" then Some u3
  else if String.eqb tok "http://localhost:3039" then Some u9
  else None.

Definition serve_forever (port : Z) : option string := None.

(** The context of a request that has just failed over once. *)
Definition failed_over_ctx : Ctx :=
  [(Attempts, 2); (Retry, 3); (Retry, 2); (Retry, 1)].

(** A pool in which two records share an address. *)
Definition pool_twins (c : Z) : ServerPool :=
  {| backends := [backend_of u1 true; backend_of u2 true; backend_of u2 true];
     current := c |}.

(** A network on which exactly the host of [u2] refuses connections. *)
Definition dial_u2_down (k : nat) (network address : string) (timeout : Z)
    : option string :=
  if String.eqb address (Host u2) then Some "connection refused" else None.

(** An upstream on which the first two round trips fail. *)
Definition two_blips (t : nat) (u : url_URL) : bool := (2 <=? t)%nat.

(** An upstream on which exactly the address of [u2] fails. *)
Definition u2_down (t : nat) (u : url_URL) : bool :=
  negb (String.eqb (URL_String u) (URL_String u2)).

End Samples.

(** * Properties *)

Section Properties.

Context {N : NetURL}.

(** ** The scan of [GetNextPeer] *)

Lemma len_pos (s : ServerPool) : backends s ≠ [] -> 0 < len s.
Proof.
  unfold len. destruct (backends s); [congruence | simpl; lia].
Qed.

Lemma scan_position (s : ServerPool) (next : Z) (k : nat) :
  backends s ≠ [] -> 0 <= next ->
  Z.rem (next + Z.of_nat k) (len s)
  = Z.of_nat ((Z.to_nat next + k) mod length (backends s)).
Proof.
  intros Hne Hnext. pose proof (len_pos s Hne) as Hpos.
  rewrite Z.rem_mod_nonneg by lia.
  rewrite Nat2Z.inj_mod, Nat2Z.inj_add, Z2Nat.id by lia. reflexivity.
Qed.

Lemma index_of_nat {A} (xs : list A) (i : nat) :
  index xs (Z.of_nat i) = xs !! i.
Proof.
  unfold index. destruct (Z.ltb_spec (Z.of_nat i) 0); [lia |].
  now rewrite Nat2Z.id.
Qed.

Lemma position_in_range (s : ServerPool) (a : nat) :
  backends s ≠ [] -> (a mod length (backends s) < length (backends s))%nat.
Proof.
  intros Hne. apply Nat.mod_upper_bound.
  destruct (backends s); [congruence | simpl; lia].
Qed.

(** The scan finds the first offset [j], counted from [next], whose backend
    is alive; it stores the position unless the offset is [0]. *)
Lemma GetNextPeer_scan_find (s : ServerPool) (next : Z) (left k : nat) :
  backends s ≠ [] -> 0 <= next ->
  GetNextPeer_scan s next (next + Z.of_nat k) left =
  match List.find
          (fun j => alive_at s ((Z.to_nat next + j) mod length (backends s)))
          (seq k left) with
  | Some j =>
      let p := ((Z.to_nat next + j) mod length (backends s))%nat in
      ((if (j =? 0)%nat then s else atomic_StoreUint64 s (Z.of_nat p)),
       Ok (Some p))
  | None => (s, Ok None)
  end.
Proof.
  intros Hne Hnext. revert k.
  induction left as [|left IH]; intros k; [reflexivity |].
  cbn [GetNextPeer_scan seq List.find].
  rewrite scan_position, index_of_nat by assumption.
  set (p := ((Z.to_nat next + k) mod length (backends s))%nat).
  destruct (lookup_lt_is_Some_2 (backends s) p (position_in_range s _ Hne))
    as [b Hb].
  unfold alive_at at 1. fold p. rewrite Hb. unfold IsAlive.
  destruct (Alive b) eqn:Ealive.
  - rewrite Nat2Z.id. cbn zeta. fold p.
    destruct k as [|k].
    + rewrite Z.add_0_r, Z.eqb_refl. reflexivity.
    + replace (next + Z.of_nat (S k) =? next) with false
        by (symmetry; apply Z.eqb_neq; lia).
      reflexivity.
  - replace (next + Z.of_nat k + 1) with (next + Z.of_nat (S k)) by lia.
    apply IH.
Qed.

Lemma NextIndex_nonempty (s : ServerPool) :
  backends s ≠ [] ->
  NextIndex s
  = ({| backends := backends s;
        current := (current s + 1) mod uint64_mod |},
     Ok (start_index s)).
Proof.
  intros Hne. pose proof (len_pos s Hne) as Hpos.
  unfold NextIndex, atomic_AddUint64, start_index.
  change (len {| backends := backends s;
                 current := (current s + 1) mod uint64_mod |}) with (len s).
  destruct (Z.eqb_spec (len s) 0); [lia | reflexivity].
Qed.

Lemma NextIndex_empty (s : ServerPool) :
  backends s = [] ->
  NextIndex s
  = ({| backends := backends s;
        current := (current s + 1) mod uint64_mod |},
     Panic divide_error).
Proof.
  intros He. unfold NextIndex, atomic_AddUint64, len. cbn. rewrite He.
  reflexivity.
Qed.

Lemma start_index_range (s : ServerPool) :
  backends s ≠ [] -> 0 <= start_index s < len s.
Proof.
  intros Hne. apply Z.mod_pos_bound, len_pos, Hne.
Qed.

Lemma GetNextPeer_unfold (s : ServerPool) :
  backends s ≠ [] ->
  GetNextPeer s =
  match first_alive_offset s with
  | Some j =>
      ((if (j =? 0)%nat then incremented s
        else atomic_StoreUint64 (incremented s) (Z.of_nat (position_of s j))),
       Ok (Some (position_of s j)))
  | None => (incremented s, Ok None)
  end.
Proof.
  intros Hne. unfold GetNextPeer. rewrite (NextIndex_nonempty s Hne).
  fold (incremented s).
  change (len (incremented s)) with (len s).
  replace (Z.to_nat (len s + start_index s - start_index s))
    with (length (backends s)) by (unfold len; lia).
  pose proof (start_index_range s Hne) as Hr.
  pose proof (GetNextPeer_scan_find (incremented s) (start_index s)
                (length (backends s)) 0 Hne (proj1 Hr)) as H.
  rewrite Z.add_0_r in H. exact H.
Qed.

Lemma find_map {A B} (f : B -> bool) (g : A -> B) (l : list A) :
  List.find f (map g l) = option_map g (List.find (fun a => f (g a)) l).
Proof.
  induction l as [|a l IH]; [reflexivity |].
  cbn. destruct (f (g a)); [reflexivity | exact IH].
Qed.

Lemma find_seq_Some (f : nat -> bool) (a n j : nat) :
  List.find f (seq a n) = Some j ->
  (a <= j < a + n)%nat /\ f j = true /\
  forall j', (a <= j' < j)%nat -> f j' = false.
Proof.
  revert a. induction n as [|n IH]; intros a; cbn; [discriminate |].
  destruct (f a) eqn:Ea.
  - intros [= <-]. repeat split; [lia | lia | assumption | intros; lia].
  - intros H. destruct (IH _ H) as (Hr & Hj & Hbefore).
    repeat split; [lia | lia | assumption |].
    intros j' Hj'. destruct (decide (j' = a)) as [-> | Hne'];
      [assumption | apply Hbefore; lia].
Qed.

Lemma find_seq_None (f : nat -> bool) (a n : nat) :
  List.find f (seq a n) = None ->
  forall j, (a <= j < a + n)%nat -> f j = false.
Proof.
  revert a. induction n as [|n IH]; intros a; cbn; [intros; lia |].
  destruct (f a) eqn:Ea; [discriminate |].
  intros H j Hj. destruct (decide (j = a)) as [-> | Hne'];
    [assumption | apply (IH _ H); lia].
Qed.

Lemma nextLivePeer_spec_offset (s : ServerPool) :
  nextLivePeer_spec s = option_map (position_of s) (first_alive_offset s).
Proof.
  unfold nextLivePeer_spec, rotation. apply find_map.
Qed.

Lemma GetNextPeer_result (s : ServerPool) :
  backends s ≠ [] ->
  snd (GetNextPeer s) = Ok (nextLivePeer_spec s) /\
  backends (fst (GetNextPeer s)) = backends s.
Proof.
  intros Hne. rewrite (GetNextPeer_unfold s Hne), nextLivePeer_spec_offset.
  destruct (first_alive_offset s) as [j|]; cbn; [| done].
  destruct (j =? 0)%nat; done.
Qed.

Lemma nextLivePeer_spec_first (s : ServerPool) :
  first_alive_from s (Z.to_nat (start_index s)) (nextLivePeer_spec s).
Proof.
  rewrite nextLivePeer_spec_offset. unfold first_alive_offset.
  destruct (List.find _ _) as [j|] eqn:E; cbn.
  - apply find_seq_Some in E. destruct E as (Hr & Hj & Hbefore).
    exists j. repeat split; [lia | assumption |].
    intros j' Hj'. apply Hbefore. lia.
  - intros j Hj. apply (find_seq_None _ _ _ E). lia.
Qed.

Lemma no_backend_alive_at (s : ServerPool) (i : nat) :
  no_backend_alive s -> alive_at s i = false.
Proof.
  intros Hdead. unfold alive_at.
  destruct (backends s !! i) as [b|] eqn:E; [| reflexivity].
  apply Hdead. eapply list_elem_of_lookup_2, E.
Qed.

Lemma nextLivePeer_spec_none (s : ServerPool) :
  no_backend_alive s -> nextLivePeer_spec s = None.
Proof.
  intros Hdead. unfold nextLivePeer_spec.
  destruct (List.find _ _) as [p|] eqn:E; [| reflexivity].
  apply find_some in E. destruct E as [_ E].
  rewrite (no_backend_alive_at s p Hdead) in E. discriminate.
Qed.

(** C10.  On an empty pool [NextIndex], and with it [GetNextPeer], panics
    with a division by zero; on a non-empty pool the start position lies
    inside the slice, every position the scan can read lies inside the
    slice, and [GetNextPeer] returns without a panic a position inside the
    slice or [nil]. *)
Theorem GetNextPeer_defined_iff_nonempty (s : ServerPool) :
  (backends s = [] ->
   snd (NextIndex s) = Panic divide_error /\
   snd (GetNextPeer s) = Panic divide_error) /\
  (backends s ≠ [] ->
   exists next,
     snd (NextIndex s) = Ok next /\ 0 <= next < len s /\
     (forall i, next <= i < len s + next ->
                is_Some (index (backends s) (Z.rem i (len s)))) /\
     exists peer,
       snd (GetNextPeer s) = Ok peer /\
       forall p, peer = Some p -> is_Some (backends s !! p)).
Proof.
  split.
  - intros He. unfold GetNextPeer. rewrite (NextIndex_empty s He). done.
  - intros Hne. exists (start_index s).
    pose proof (start_index_range s Hne) as Hr.
    pose proof (len_pos s Hne) as Hpos.
    split; [rewrite (NextIndex_nonempty s Hne); reflexivity |].
    split; [exact Hr |]. split.
    + intros i Hi. rewrite Z.rem_mod_nonneg by lia.
      pose proof (Z.mod_pos_bound i (len s) Hpos) as Hb.
      unfold index. destruct (Z.ltb_spec (i mod len s) 0); [lia |].
      apply lookup_lt_is_Some_2. unfold len in *. lia.
    + exists (nextLivePeer_spec s).
      split; [exact (proj1 (GetNextPeer_result s Hne)) |].
      intros p Hp. pose proof (nextLivePeer_spec_first s) as Hf.
      rewrite Hp in Hf. destruct Hf as (j & _ & -> & _).
      apply lookup_lt_is_Some_2, position_in_range, Hne.
Qed.

(** ** Round-robin order on a fully alive pool *)

Lemma rotation_inj (n a j j' : nat) :
  (j < n)%nat -> (j' < n)%nat ->
  ((a + j) mod n = (a + j') mod n)%nat -> j = j'.
Proof.
  intros Hj Hj' Heq.
  pose proof (Nat.div_mod_eq (a + j) n) as E1.
  pose proof (Nat.div_mod_eq (a + j') n) as E2.
  rewrite Heq in E1.
  set (q1 := ((a + j) / n)%nat) in *. set (q2 := ((a + j') / n)%nat) in *.
  set (r := ((a + j') mod n)%nat) in *.
  assert (q1 = q2) by nia. subst q1. nia.
Qed.

Lemma fully_alive_at (s : ServerPool) (i : nat) :
  fully_alive s -> (i < length (backends s))%nat -> alive_at s i = true.
Proof.
  intros Hall Hi. unfold alive_at.
  destruct (lookup_lt_is_Some_2 _ _ Hi) as [b Hb]. rewrite Hb.
  apply Hall. eapply list_elem_of_lookup_2, Hb.
Qed.

Lemma position_of_0 (s : ServerPool) :
  backends s ≠ [] -> position_of s 0 = Z.to_nat (start_index s).
Proof.
  intros Hne. unfold position_of. rewrite Nat.add_0_r.
  apply Nat.mod_small. pose proof (start_index_range s Hne). unfold len in *.
  lia.
Qed.

Lemma find_seq_head (f : nat -> bool) (n : nat) :
  (0 < n)%nat -> f 0%nat = true -> List.find f (seq 0 n) = Some 0%nat.
Proof.
  intros Hn Hf. destruct n as [|n]; [lia |]. cbn. now rewrite Hf.
Qed.

Lemma GetNextPeer_start_alive (s : ServerPool) :
  backends s ≠ [] -> alive_at s (Z.to_nat (start_index s)) = true ->
  GetNextPeer s = (incremented s, Ok (Some (Z.to_nat (start_index s)))).
Proof.
  intros Hne Halive. rewrite (GetNextPeer_unfold s Hne).
  unfold first_alive_offset. rewrite find_seq_head.
  - cbn. now rewrite (position_of_0 s Hne).
  - pose proof (len_pos s Hne). unfold len in *. lia.
  - fold (position_of s 0). now rewrite (position_of_0 s Hne).
Qed.

Lemma GetNextPeer_fully_alive (s : ServerPool) :
  backends s ≠ [] -> fully_alive s ->
  GetNextPeer s = (incremented s, Ok (Some (Z.to_nat (start_index s)))).
Proof.
  intros Hne Hall. apply GetNextPeer_start_alive; [assumption |].
  apply fully_alive_at; [assumption |].
  pose proof (start_index_range s Hne). unfold len in *. lia.
Qed.

Lemma GetNextPeer_times_fully_alive (k : nat) (s : ServerPool) :
  backends s ≠ [] -> fully_alive s ->
  0 <= current s -> current s + Z.of_nat k < 2 ^ 64 ->
  GetNextPeer_times k s
  = ({| backends := backends s; current := current s + Z.of_nat k |},
     Ok (map (fun j => Some ((Z.to_nat (current s + 1) + j)
                               mod length (backends s))%nat)
             (seq 0 k))).
Proof.
  revert s. induction k as [|k IH]; intros s Hne Hall Hc Hk.
  - cbn. rewrite Z.add_0_r. destruct s; reflexivity.
  - cbn [GetNextPeer_times]. rewrite (GetNextPeer_fully_alive s Hne Hall).
    assert (Hinc : incremented s
                   = {| backends := backends s; current := current s + 1 |}).
    { unfold incremented, uint64_mod. rewrite Z.mod_small by lia.
      reflexivity. }
    rewrite Hinc, IH; cbn [backends current]; try assumption; try lia.
    f_equal; [f_equal; lia |]. f_equal. cbn [seq map]. f_equal.
    + f_equal. unfold start_index, uint64_mod.
      rewrite (Z.mod_small (current s + 1)) by lia.
      pose proof (len_pos s Hne). unfold len.
      rewrite Nat.add_0_r, Z2Nat.inj_mod by lia. now rewrite Nat2Z.id.
    + rewrite <- seq_shift, map_map. apply map_ext. intros j.
      do 2 f_equal. lia.
Qed.

Lemma rotation_Permutation (a n : nat) :
  map (fun j => (a + j) mod n)%nat (seq 0 n) ≡ₚ seq 0 n.
Proof.
  destruct n as [|n]; [reflexivity |].
  apply submseteq_length_Permutation.
  - apply NoDup_submseteq.
    + apply (NoDup_fmap_2_strong (fun j => (a + j) mod S n)%nat).
      * intros j j' Hj Hj' Heq.
        apply elem_of_seq in Hj, Hj'. eapply rotation_inj; [| | exact Heq]; lia.
      * apply NoDup_seq.
    + intros x Hx. apply list_elem_of_fmap in Hx. destruct Hx as (j & -> & _).
      apply elem_of_seq. pose proof (Nat.mod_upper_bound (a + j) (S n)). lia.
  - rewrite length_map. reflexivity.
Qed.

(** C6, as amended.  On a fully alive, non-empty pool whose cursor does not
    wrap around [2^64] within the next [n] increments, [n] selections in a
    row return every position exactly once. *)
Theorem round_robin_coverage_without_wraparound (s : ServerPool) :
  backends s ≠ [] -> fully_alive s ->
  0 <= current s -> current s + len s < 2 ^ 64 ->
  round_robin_coverage s.
Proof.
  intros Hne Hall Hc Hwrap.
  exists (map (fun j => (Z.to_nat (current s + 1) + j)
                          mod length (backends s))%nat
              (seq 0 (length (backends s)))).
  split.
  - rewrite (GetNextPeer_times_fully_alive _ s Hne Hall Hc Hwrap).
    cbn [snd]. rewrite map_map. reflexivity.
  - apply rotation_Permutation.
Qed.

(** ** The cursor *)

Lemma position_of_start_iff (s : ServerPool) (j : nat) :
  backends s ≠ [] -> (j < length (backends s))%nat ->
  position_of s j = Z.to_nat (start_index s) <-> j = 0%nat.
Proof.
  intros Hne Hj. split.
  - intros H. rewrite <- (position_of_0 s Hne) in H. unfold position_of in H.
    eapply rotation_inj; [exact Hj | | exact H].
    destruct (backends s); [congruence | cbn; lia].
  - intros ->. apply position_of_0, Hne.
Qed.

Lemma first_alive_offset_lt (s : ServerPool) (j : nat) :
  first_alive_offset s = Some j -> (j < length (backends s))%nat.
Proof.
  unfold first_alive_offset. intros H. apply find_seq_Some in H. lia.
Qed.

(** C1.  On a non-empty pool [GetNextPeer] increments the cursor (modulo
    [2^64]), starts at the incremented cursor modulo the pool size, looks at
    that many consecutive positions wrapping around, and returns the first
    backend that is alive; when no backend is alive it returns [nil].  The
    cursor it leaves is the incremented one, or the winning position when
    that differs from the start.  With cursor [0] and three backends the
    scan starts at position [1]. *)
Theorem GetNextPeer_first_alive (s : ServerPool) :
  backends s ≠ [] ->
  let n := length (backends s) in
  let start := ((current s + 1) mod 2 ^ 64) mod Z.of_nat n in
  NextIndex s
  = ({| backends := backends s; current := (current s + 1) mod 2 ^ 64 |},
     Ok start) /\
  snd (GetNextPeer s) = Ok (nextLivePeer_spec s) /\
  backends (fst (GetNextPeer s)) = backends s /\
  current (fst (GetNextPeer s))
  = match nextLivePeer_spec s with
    | Some p =>
        if Z.of_nat p =? start then (current s + 1) mod 2 ^ 64 else Z.of_nat p
    | None => (current s + 1) mod 2 ^ 64
    end /\
  first_alive_from s (Z.to_nat start) (nextLivePeer_spec s) /\
  (no_backend_alive s -> snd (GetNextPeer s) = Ok None) /\
  (current s = 0 -> n = 3%nat -> start = 1).
Proof.
  intros Hne n start.
  destruct (GetNextPeer_result s Hne) as [Hres Hbs].
  split; [exact (NextIndex_nonempty s Hne) |].
  split; [exact Hres |]. split; [exact Hbs |].
  split.
  { pose proof (start_index_range s Hne) as Hr.
    rewrite (GetNextPeer_unfold s Hne), nextLivePeer_spec_offset.
    destruct (first_alive_offset s) as [j|] eqn:Ej; [| reflexivity].
    pose proof (first_alive_offset_lt s j Ej) as Hj.
    pose proof (position_of_start_iff s j Hne Hj) as Hiff.
    cbn [option_map fst]. change start with (start_index s).
    destruct (Nat.eqb_spec j 0) as [-> | Hj0].
    - rewrite (position_of_0 s Hne), Z2Nat.id, Z.eqb_refl by lia.
      reflexivity.
    - destruct (Z.eqb_spec (Z.of_nat (position_of s j)) (start_index s))
        as [E | _]; [| reflexivity].
      exfalso. apply Hj0, Hiff. lia. }
  split; [exact (nextLivePeer_spec_first s) |].
  split.
  - intros Hdead. rewrite Hres, (nextLivePeer_spec_none s Hdead). reflexivity.
  - intros Hc Hn. subst start. rewrite Hc, Hn. reflexivity.
Qed.

Lemma HealthCheck_current (Dial : nat -> string -> string -> Z -> option string)
    (k : nat) (s : ServerPool) :
  current (fst (HealthCheck Dial k s)) = current s.
Proof.
  unfold HealthCheck. destruct (HealthCheck_range Dial k (backends s)).
  reflexivity.
Qed.

(** C8, as amended.  [MarkBackendStatus] and the health sweep leave the
    cursor alone.  A selection on a non-empty pool leaves the cursor at the
    winning position when that differs from the start position, and one
    above its old value, modulo [2^64], otherwise; so the cursor grows by
    exactly one when the start backend is alive, or none is, below
    [2^64 - 1]. *)
Theorem cursor_after_pool_operations (s : ServerPool) :
  backends s ≠ [] -> is_uint64 (current s) ->
  (forall u alive, current (MarkBackendStatus s u alive) = current s) /\
  (forall Dial k, current (fst (HealthCheck Dial k s)) = current s) /\
  (forall p, snd (GetNextPeer s) = Ok (Some p) ->
             Z.of_nat p ≠ start_index s ->
             current (fst (GetNextPeer s)) = Z.of_nat p /\
             Z.of_nat p < len s) /\
  (forall p, snd (GetNextPeer s) = Ok (Some p) ->
             Z.of_nat p = start_index s ->
             current (fst (GetNextPeer s)) = (current s + 1) mod 2 ^ 64) /\
  (snd (GetNextPeer s) = Ok None ->
   current (fst (GetNextPeer s)) = (current s + 1) mod 2 ^ 64) /\
  (current s < 2 ^ 64 - 1 ->
   alive_at s (Z.to_nat (start_index s)) = true \/ no_backend_alive s ->
   current (fst (GetNextPeer s)) = current s + 1).
Proof.
  intros Hne Hc. pose proof (start_index_range s Hne) as Hr.
  split; [reflexivity |]. split; [intros; apply HealthCheck_current |].
  rewrite (GetNextPeer_unfold s Hne).
  destruct (first_alive_offset s) as [j|] eqn:Ej.
  - pose proof (first_alive_offset_lt s j Ej) as Hj.
    pose proof (position_of_start_iff s j Hne Hj) as Hiff.
    cbn [fst snd]. split; [| split; [| split]].
    + intros p [= <-] Hp.
      destruct (Nat.eqb_spec j 0) as [-> | Hj0].
      * exfalso. apply Hp. rewrite (proj2 Hiff eq_refl). lia.
      * split; [reflexivity |]. unfold len, position_of.
        pose proof (position_in_range s (Z.to_nat (start_index s) + j) Hne).
        lia.
    + intros p [= <-] Hp.
      assert (j = 0%nat) as -> by (apply Hiff; lia). reflexivity.
    + discriminate.
    + intros Hlt [Halive | Hdead].
      * assert (j = 0%nat) as ->.
        { unfold first_alive_offset in Ej. rewrite find_seq_head in Ej.
          - congruence.
          - lia.
          - rewrite Nat.add_0_r, Nat.mod_small; [exact Halive |].
            unfold len in Hr. lia. }
        cbn. unfold uint64_mod, is_uint64 in *. apply Z.mod_small. lia.
      * exfalso. unfold first_alive_offset in Ej. apply find_some in Ej.
        destruct Ej as [_ Ej].
        rewrite (no_backend_alive_at s _ Hdead) in Ej. discriminate.
  - cbn [fst snd]. split; [| split; [| split]]; try discriminate.
    + reflexivity.
    + intros Hlt _. cbn. unfold uint64_mod, is_uint64 in *.
      apply Z.mod_small. lia.
Qed.

(** ** Health sweep *)

Lemma HealthCheck_range_backends
    (Dial : nat -> string -> string -> Z -> option string)
    (bs : list Backend) (k : nat) :
  fst (HealthCheck_range Dial k bs)
  = imap (fun i b =>
            SetAlive b
              match Dial (k + i)%nat "tcp" (Host (URL b)) (2 * time_Second) with
              | None => true
              | Some _ => false
              end) bs.
Proof.
  revert k. induction bs as [|b bs IH]; intros k; [reflexivity |].
  cbn [HealthCheck_range imap]. unfold isBackendAlive.
  specialize (IH (S k)).
  destruct (HealthCheck_range Dial (S k) bs) as [rest evs]. cbn [fst] in IH.
  rewrite Nat.add_0_r.
  destruct (Dial k "tcp" (Host (URL b)) (2 * time_Second)); cbn [fst];
    (f_equal; rewrite IH; apply imap_ext; intros i x _; cbn;
     now replace (S (k + i))%nat with (k + S i)%nat by lia).
Qed.

Lemma HealthCheck_range_dials
    (Dial : nat -> string -> string -> Z -> option string)
    (bs : list Backend) (k : nat) :
  dials (snd (HealthCheck_range Dial k bs))
  = map (fun b => ("tcp", Host (URL b), 2 * time_Second)) bs.
Proof.
  revert k. induction bs as [|b bs IH]; intros k; [reflexivity |].
  cbn [HealthCheck_range map]. unfold isBackendAlive.
  specialize (IH (S k)).
  destruct (HealthCheck_range Dial (S k) bs) as [rest evs]. cbn [snd] in IH.
  destruct (Dial k "tcp" (Host (URL b)) (2 * time_Second)); cbn [snd app];
    unfold dials in *; cbn [omap list_omap]; now rewrite IH.
Qed.

(** C9.  A health sweep dials every backend of the pool once, in pool
    order, over ["tcp"] to the backend's host with a timeout of two seconds,
    and sets each backend alive exactly when its dial returned no error;
    addresses, proxies, pool size and cursor are unchanged. *)
Theorem HealthCheck_full_sweep
    (Dial : nat -> string -> string -> Z -> option string)
    (k : nat) (s : ServerPool) :
  dials (snd (HealthCheck Dial k s))
  = map (fun b => ("tcp", Host (URL b), 2000000000)) (backends s) /\
  backends (fst (HealthCheck Dial k s))
  = imap (fun i b =>
            {| URL := URL b;
               Alive := match Dial (k + i)%nat "tcp" (Host (URL b)) 2000000000
                        with
                        | None => true
                        | Some _ => false
                        end;
               ReverseProxy := ReverseProxy b |}) (backends s) /\
  current (fst (HealthCheck Dial k s)) = current s.
Proof.
  pose proof (HealthCheck_range_backends Dial (backends s) k) as Hb.
  pose proof (HealthCheck_range_dials Dial (backends s) k) as Hd.
  unfold HealthCheck.
  destruct (HealthCheck_range Dial k (backends s)) as [bs evs].
  cbn [fst snd backends current] in *. repeat split; assumption.
Qed.

(** ** Demotion and selection *)

Lemma MarkBackendStatus_range_insert (bs : list Backend) (p : nat)
    (b : Backend) (alive : bool) :
  NoDup (map (fun x => URL_String (URL x)) bs) ->
  bs !! p = Some b ->
  MarkBackendStatus_range bs (URL b) alive = <[p := SetAlive b alive]> bs.
Proof.
  revert p. induction bs as [|b0 bs IH]; intros p Hnd Hp; [discriminate |].
  cbn [MarkBackendStatus_range]. destruct p as [|p]; cbn in Hp.
  - injection Hp as ->. rewrite String.eqb_refl. reflexivity.
  - cbn [map] in Hnd. apply NoDup_cons in Hnd. destruct Hnd as [Hnotin Hnd].
    destruct (String.eqb_spec (URL_String (URL b0)) (URL_String (URL b)))
      as [Heq | Hneq].
    + exfalso. apply Hnotin. rewrite Heq.
      apply (list_elem_of_fmap_2 (fun x => URL_String (URL x))).
      eapply list_elem_of_lookup_2, Hp.
    + cbn. f_equal. apply IH; assumption.
Qed.

Lemma MarkBackendStatus_own (s : ServerPool) (p : nat) (b : Backend) :
  registered s -> distinct_addresses s -> backends s !! p = Some b ->
  MarkBackendStatus s (serverUrl (ReverseProxy b)) false
  = {| backends := <[p := SetAlive b false]> (backends s);
       current := current s |}.
Proof.
  intros Hreg Hnd Hp. unfold MarkBackendStatus.
  rewrite (Hreg b) by (eapply list_elem_of_lookup_2, Hp).
  now rewrite (MarkBackendStatus_range_insert _ p b false Hnd Hp).
Qed.

Lemma insert_dead_addresses (bs : list Backend) (p : nat) (b : Backend) :
  bs !! p = Some b ->
  map (fun x => URL_String (URL x)) (<[p := SetAlive b false]> bs)
  = map (fun x => URL_String (URL x)) bs.
Proof.
  revert p. induction bs as [|b0 bs IH]; intros p Hp; [reflexivity |].
  destruct p as [|p]; cbn in *.
  - now injection Hp as ->.
  - f_equal. now apply IH.
Qed.

Lemma insert_dead_registered (s : ServerPool) (p : nat) (b : Backend) (c : Z) :
  registered s -> backends s !! p = Some b ->
  registered {| backends := <[p := SetAlive b false]> (backends s);
                current := c |}.
Proof.
  intros Hreg Hp x Hx. cbn [backends] in Hx.
  apply list_elem_of_lookup_1 in Hx. destruct Hx as [i Hi].
  destruct (decide (i = p)) as [-> | Hne].
  - rewrite list_lookup_insert_eq in Hi by (eapply lookup_lt_Some, Hp).
    injection Hi as <-. cbn. apply Hreg. eapply list_elem_of_lookup_2, Hp.
  - rewrite list_lookup_insert_ne in Hi by congruence.
    apply Hreg. eapply list_elem_of_lookup_2, Hi.
Qed.

Lemma alive_count_insert_dead (bs : list Backend) (p : nat) (b : Backend) :
  bs !! p = Some b -> Alive b = true ->
  S (length (filter (fun x => Alive x = true) (<[p := SetAlive b false]> bs)))
  = length (filter (fun x => Alive x = true) bs).
Proof.
  revert p. induction bs as [|b0 bs IH]; intros p Hp Halive; [discriminate |].
  destruct p as [|p]; cbn in Hp.
  - injection Hp as ->. cbn [list_insert insert].
    rewrite (filter_cons_True _ b) by assumption.
    rewrite filter_cons_False by (cbn; discriminate). reflexivity.
  - cbn [list_insert insert]. rewrite !filter_cons.
    destruct (decide (Alive b0 = true)); cbn [length]; rewrite <- (IH p);
      auto.
Qed.

Lemma alive_count_witness (s : ServerPool) :
  (1 <= alive_count s)%nat ->
  exists i b, backends s !! i = Some b /\ Alive b = true.
Proof.
  unfold alive_count. intros Hc.
  destruct (filter (fun b => Alive b = true) (backends s)) as [|b l] eqn:E;
    [cbn in Hc; lia |].
  assert (Hin : b ∈ filter (fun b => Alive b = true) (backends s))
    by (rewrite E; apply list_elem_of_here).
  apply list_elem_of_filter in Hin. destruct Hin as [Hb Hin].
  apply list_elem_of_lookup_1 in Hin. destruct Hin as [i Hi]. eauto.
Qed.

Lemma rotation_covers (a n i : nat) : (i < n)%nat -> i ∈ rotation a n.
Proof.
  intros Hi. unfold rotation. rewrite (rotation_Permutation a n).
  apply elem_of_seq. lia.
Qed.

(** With an alive backend in the pool a selection returns an alive one. *)
Lemma GetNextPeer_alive (s : ServerPool) (i : nat) (b : Backend) :
  backends s !! i = Some b -> Alive b = true ->
  exists p bp,
    snd (GetNextPeer s) = Ok (Some p) /\
    backends (fst (GetNextPeer s)) = backends s /\
    backends s !! p = Some bp /\ Alive bp = true.
Proof.
  intros Hi Halive.
  assert (Hne : backends s ≠ []) by (intros E; rewrite E in Hi; discriminate).
  destruct (GetNextPeer_result s Hne) as [Hres Hbs].
  rewrite Hres, Hbs. unfold nextLivePeer_spec.
  destruct (List.find _ _) as [p|] eqn:E.
  - apply find_some in E. destruct E as [_ Hp]. unfold alive_at in Hp.
    destruct (backends s !! p) as [bp|] eqn:Ebp; [| discriminate].
    exists p, bp. auto.
  - exfalso.
    assert (Hin : In i (rotation (Z.to_nat (start_index s))
                          (length (backends s)))).
    { apply list_elem_of_In, rotation_covers. eapply lookup_lt_Some, Hi. }
    pose proof (find_none _ _ E i Hin) as Hdead.
    unfold alive_at in Hdead. rewrite Hi in Hdead. congruence.
Qed.

(** ** Single calls of the dispatch chain *)

Section DispatchFacts.

Variable upstream : nat -> url_URL -> bool.

Lemma lb_guard (r : Request) (w : World) :
  3 < GetAttemptsFromContext r ->
  lb r w
  = (http_Error (emit w (EvDispatch (Context_of r)))
       "servie not available" StatusServiceUnavailable, Return).
Proof.
  intros H. unfold lb.
  destruct (Z.gtb_spec (GetAttemptsFromContext r) 3); [reflexivity | lia].
Qed.

Lemma lb_forward (r : Request) (w : World) (s1 : ServerPool) (p : nat)
    (b : Backend) :
  GetAttemptsFromContext r <= 3 ->
  GetNextPeer (pool w) = (s1, Ok (Some p)) ->
  backends s1 !! p = Some b ->
  lb r w
  = (emit (set_pool (emit w (EvDispatch (Context_of r))) s1)
       (EvGetNextPeer (Some p)),
     Tail (Call_ServeHTTP (ReverseProxy b) r)).
Proof.
  intros H Hpeer Hb. unfold lb.
  destruct (Z.gtb_spec (GetAttemptsFromContext r) 3); [lia |].
  cbn [pool emit]. rewrite Hpeer, Hb. reflexivity.
Qed.

Lemma lb_no_peer (r : Request) (w : World) (s1 : ServerPool) :
  GetAttemptsFromContext r <= 3 ->
  GetNextPeer (pool w) = (s1, Ok None) ->
  lb r w
  = (emit (set_pool (emit w (EvDispatch (Context_of r))) s1)
       (EvGetNextPeer None), Return).
Proof.
  intros H Hpeer. unfold lb.
  destruct (Z.gtb_spec (GetAttemptsFromContext r) 3); [lia |].
  cbn [pool emit]. rewrite Hpeer. reflexivity.
Qed.

Lemma ServeHTTP_fail (p : ReverseProxy_t) (r : Request) (w : World) :
  upstream (trips w) (serverUrl p) = false ->
  ServeHTTP upstream p r w
  = ({| pool := pool w; written := written w;
        trace := trace w ++ [EvRoundTrip (serverUrl p) (Context_of r)];
        trips := S (trips w) |},
     Tail (Call_ErrorHandler p r)).
Proof.
  intros H. unfold ServeHTTP. rewrite H. reflexivity.
Qed.

Lemma ErrorHandler_retry (p : ReverseProxy_t) (r : Request) (w : World) :
  GetRetryFromContext r < 3 ->
  ErrorHandler p r w
  = (emit w (EvAfter (10 * time_Millisecond)),
     Tail (Call_ServeHTTP p
             (WithContext r
                (context_WithValue (Context_of r) Retry
                   (int_add (GetRetryFromContext r) 1))))).
Proof.
  intros H. unfold ErrorHandler.
  destruct (Z.ltb_spec (GetRetryFromContext r) 3); [reflexivity | lia].
Qed.

Lemma ErrorHandler_failover (p : ReverseProxy_t) (r : Request) (w : World) :
  3 <= GetRetryFromContext r ->
  ErrorHandler p r w
  = (emit (set_pool w (MarkBackendStatus (pool w) (serverUrl p) false))
       (EvMarkBackendStatus (serverUrl p) false),
     Tail (Call_lb
             (WithContext r
                (context_WithValue (Context_of r) Attempts
                   (int_add (GetAttemptsFromContext r) 1))))).
Proof.
  intros H. unfold ErrorHandler.
  destruct (Z.ltb_spec (GetRetryFromContext r) 3); [lia | reflexivity].
Qed.

Lemma run_tail (fuel : nat) (c c1 : call) (w w1 : World) :
  step upstream c w = (w1, Tail c1) ->
  run upstream (S fuel) c w = run upstream fuel c1 w1.
Proof. intros H. cbn [run]. rewrite H. reflexivity. Qed.

Lemma run_return (fuel : nat) (c : call) (w w1 : World) :
  step upstream c w = (w1, Return) ->
  run upstream (S fuel) c w = (w1, Some (Ok tt)).
Proof. intros H. cbn [run]. rewrite H. reflexivity. Qed.

(** One failed round trip below the retry cap: a wait, then the same
    backend again with the retry count one higher. *)
Lemma retry_round (fuel : nat) (p : ReverseProxy_t) (r : Request)
    (w : World) :
  GetRetryFromContext r < 3 ->
  upstream (trips w) (serverUrl p) = false ->
  run upstream (2 + fuel) (Call_ServeHTTP p r) w
  = run upstream fuel
      (Call_ServeHTTP p
         (WithContext r
            (context_WithValue (Context_of r) Retry
               (int_add (GetRetryFromContext r) 1))))
      {| pool := pool w; written := written w;
         trace := trace w ++ [EvRoundTrip (serverUrl p) (Context_of r);
                              EvAfter (10 * time_Millisecond)];
         trips := S (trips w) |}.
Proof.
  intros Hr Hdown. cbn [Nat.add].
  erewrite run_tail by (apply ServeHTTP_fail; assumption).
  erewrite run_tail by (apply ErrorHandler_retry; assumption).
  unfold emit. cbn [pool written trace trips]. rewrite <- app_assoc.
  reflexivity.
Qed.

(** One failed round trip at the retry cap: the backend is marked dead
    and the dispatcher is entered again with the attempt count one
    higher. *)
Lemma failover_round (fuel : nat) (p : ReverseProxy_t) (r : Request)
    (w : World) :
  3 <= GetRetryFromContext r ->
  upstream (trips w) (serverUrl p) = false ->
  run upstream (2 + fuel) (Call_ServeHTTP p r) w
  = run upstream fuel
      (Call_lb
         (WithContext r
            (context_WithValue (Context_of r) Attempts
               (int_add (GetAttemptsFromContext r) 1))))
      {| pool := MarkBackendStatus (pool w) (serverUrl p) false;
         written := written w;
         trace := trace w ++ [EvRoundTrip (serverUrl p) (Context_of r);
                              EvMarkBackendStatus (serverUrl p) false];
         trips := S (trips w) |}.
Proof.
  intros Hr Hdown. cbn [Nat.add].
  erewrite run_tail by (apply ServeHTTP_fail; assumption).
  erewrite run_tail by (apply ErrorHandler_failover; assumption).
  unfold emit, set_pool. cbn [pool written trace trips].
  rewrite <- app_assoc. reflexivity.
Qed.

Ltac retry_count Hc :=
  unfold GetRetryFromContext; cbn; rewrite ?Hc;
  first [lia | vm_compute; first [reflexivity | discriminate]].

(** The first hop of a request: three retries, then the failover. *)
Lemma first_hop (fuel : nat) (p : ReverseProxy_t) (c : Ctx) (w : World) :
  context_Value c Retry = None ->
  (forall t, upstream t (serverUrl p) = false) ->
  run upstream (8 + fuel) (Call_ServeHTTP p (mkRequest c)) w
  = run upstream fuel
      (Call_lb
         (mkRequest
            ((Attempts, int_add (GetAttemptsFromContext (mkRequest c)) 1)
             :: (Retry, 3) :: (Retry, 2) :: (Retry, 1) :: c)))
      {| pool := MarkBackendStatus (pool w) (serverUrl p) false;
         written := written w;
         trace := trace w
                  ++ [EvRoundTrip (serverUrl p) c;
                      EvAfter (10 * time_Millisecond);
                      EvRoundTrip (serverUrl p) ((Retry, 1) :: c);
                      EvAfter (10 * time_Millisecond);
                      EvRoundTrip (serverUrl p)
                        ((Retry, 2) :: (Retry, 1) :: c);
                      EvAfter (10 * time_Millisecond);
                      EvRoundTrip (serverUrl p)
                        ((Retry, 3) :: (Retry, 2) :: (Retry, 1) :: c);
                      EvMarkBackendStatus (serverUrl p) false];
         trips := 4 + trips w |}.
Proof.
  intros Hc Hdown.
  change (8 + fuel)%nat with (2 + (2 + (2 + (2 + fuel))))%nat.
  rewrite retry_round
    by (first [apply Hdown | retry_count Hc]).
  rewrite retry_round
    by (first [apply Hdown | retry_count Hc]).
  rewrite retry_round
    by (first [apply Hdown | retry_count Hc]).
  rewrite failover_round
    by (first [apply Hdown | retry_count Hc]).
  unfold GetRetryFromContext, GetAttemptsFromContext, WithContext,
    context_WithValue.
  cbn [Context_of context_Value pool written trace trips].
  rewrite Hc. cbn. rewrite <- !app_assoc. reflexivity.
Qed.

End DispatchFacts.

(** ** A pool with one backend *)

Lemma GetNextPeer_pair (s : ServerPool) :
  GetNextPeer s = (fst (GetNextPeer s), snd (GetNextPeer s)).
Proof. destruct (GetNextPeer s); reflexivity. Qed.

Lemma GetNextPeer_none (s : ServerPool) :
  backends s ≠ [] -> no_backend_alive s ->
  snd (GetNextPeer s) = Ok None /\
  backends (fst (GetNextPeer s)) = backends s.
Proof.
  intros Hne Hdead. destruct (GetNextPeer_result s Hne) as [Hres Hbs].
  now rewrite Hres, (nextLivePeer_spec_none s Hdead).
Qed.

(** C3: what the code does.  With a single backend that fails every round
    trip, a fresh request makes four round trips to it with three waits of
    10ms, the backend is marked dead, the dispatcher is entered again with
    attempts [2], finds no peer and returns: the handler ends without any
    reply written, where the claim promises service-unavailable. *)
Theorem single_backend_gets_no_reply (upstream : nat -> url_URL -> bool)
    (b : Backend) (c : Z) (fuel : nat) :
  Alive b = true ->
  serverUrl (ReverseProxy b) = URL b ->
  (forall t, upstream t (URL b) = false) ->
  exists w,
    run upstream (10 + fuel) (Call_lb fresh_request)
      (world_of {| backends := [b]; current := c |})
    = (w, Some (Ok tt)) /\
    written w = None /\
    backends (pool w) = [SetAlive b false] /\
    round_trips (trace w) = [URL b; URL b; URL b; URL b] /\
    backoffs (trace w) = [10000000; 10000000; 10000000] /\
    selections (trace w) = [Some 0%nat; None].
Proof.
  intros Halive Hreg Hdown.
  set (s := {| backends := [b]; current := c |}).
  assert (Hne : backends s ≠ []) by discriminate.
  assert (Hall : fully_alive s).
  { intros x Hx. cbn in Hx. apply elem_of_cons in Hx as [-> | Hx];
      [assumption | now apply elem_of_nil in Hx]. }
  assert (Hstart : Z.to_nat (start_index s) = 0%nat).
  { pose proof (start_index_range s Hne) as Hr. unfold len in Hr. cbn in Hr.
    lia. }
  pose proof (GetNextPeer_fully_alive s Hne Hall) as Hsel.
  rewrite Hstart in Hsel.
  change (10 + fuel)%nat with (S (8 + S fuel)).
  erewrite run_tail
    by (apply (lb_forward fresh_request (world_of s) (incremented s) 0 b);
        [cbn; lia | exact Hsel | reflexivity]).
  unfold fresh_request.
  rewrite first_hop by (first [reflexivity | rewrite Hreg; apply Hdown]).
  cbn [emit set_pool pool written trace trips world_of].
  set (s2 := MarkBackendStatus (incremented s) (serverUrl (ReverseProxy b))
               false).
  assert (Hs2 : backends s2 = [SetAlive b false]).
  { unfold s2, MarkBackendStatus. cbn. rewrite Hreg, String.eqb_refl.
    reflexivity. }
  assert (Hne2 : backends s2 ≠ []) by (rewrite Hs2; discriminate).
  assert (Hdead : no_backend_alive s2).
  { intros x Hx. rewrite Hs2 in Hx. apply elem_of_cons in Hx as [-> | Hx];
      [reflexivity | now apply elem_of_nil in Hx]. }
  destruct (GetNextPeer_none s2 Hne2 Hdead) as [Hres Hbs].
  erewrite run_return
    by (apply lb_no_peer;
        [vm_compute; discriminate
        | cbn [pool]; rewrite GetNextPeer_pair, Hres; reflexivity]).
  eexists. split; [reflexivity |].
  cbn [emit set_pool pool written trace trips].
  rewrite Hbs, Hs2, Hreg. repeat split; reflexivity.
Qed.

(** ** Three failovers *)

Lemma registered_backends (s s' : ServerPool) :
  backends s' = backends s -> registered s -> registered s'.
Proof. unfold registered. now intros ->. Qed.

Lemma distinct_addresses_backends (s s' : ServerPool) :
  backends s' = backends s -> distinct_addresses s -> distinct_addresses s'.
Proof. unfold distinct_addresses. now intros ->. Qed.

(** One selection followed by the demotion of the selected backend. *)
Lemma select_then_demote (s : ServerPool) :
  registered s -> distinct_addresses s -> (1 <= alive_count s)%nat ->
  exists p b s1,
    GetNextPeer s = (s1, Ok (Some p)) /\
    backends s1 !! p = Some b /\
    backends s !! p = Some b /\ Alive b = true /\
    let s2 := MarkBackendStatus s1 (serverUrl (ReverseProxy b)) false in
    backends s2 = <[p := SetAlive b false]> (backends s) /\
    registered s2 /\ distinct_addresses s2 /\
    S (alive_count s2) = alive_count s.
Proof.
  intros Hreg Hnd Hcount.
  destruct (alive_count_witness s Hcount) as (i & bi & Hi & Hbi).
  destruct (GetNextPeer_alive s i bi Hi Hbi) as (p & b & Hres & Hbs & Hp & Hb).
  exists p, b, (fst (GetNextPeer s)).
  set (s1 := fst (GetNextPeer s)) in *.
  assert (Hreg1 : registered s1) by (eapply registered_backends; eauto).
  assert (Hnd1 : distinct_addresses s1)
    by (eapply distinct_addresses_backends; eauto).
  assert (Hp1 : backends s1 !! p = Some b) by now rewrite Hbs.
  split; [unfold s1; rewrite (GetNextPeer_pair s) at 1; now rewrite Hres |].
  split; [exact Hp1 |]. split; [exact Hp |]. split; [exact Hb |].
  cbn zeta. rewrite (MarkBackendStatus_own s1 p b Hreg1 Hnd1 Hp1).
  cbn [backends]. rewrite Hbs.
  split; [reflexivity |].
  split; [now apply insert_dead_registered |].
  split.
  - unfold distinct_addresses. cbn [backends].
    rewrite insert_dead_addresses by assumption. exact Hnd.
  - unfold alive_count. cbn [backends].
    now apply alive_count_insert_dead.
Qed.

Lemma alive_after_demotion (bs : list Backend) (p q : nat) (b bq : Backend) :
  bs !! p = Some b ->
  <[p := SetAlive b false]> bs !! q = Some bq -> Alive bq = true ->
  q ≠ p /\ bs !! q = Some bq.
Proof.
  intros Hp Hq Hbq. destruct (decide (q = p)) as [-> | Hne].
  - rewrite list_lookup_insert_eq in Hq by (eapply lookup_lt_Some, Hp).
    injection Hq as <-. discriminate Hbq.
  - rewrite list_lookup_insert_ne in Hq by congruence. auto.
Qed.

Lemma run_more_fuel (upstream : nat -> url_URL -> bool) (fuel extra : nat)
    (c : call) (w w' : World) (o : result unit) :
  run upstream fuel c w = (w', Some o) ->
  run upstream (fuel + extra) c w = (w', Some o).
Proof.
  revert c w. induction fuel as [|fuel IH]; intros c w; cbn [run Nat.add];
    [discriminate |].
  destruct (step upstream c w) as [w1 [c1| |msg]]; auto.
Qed.

Lemma run_outcome_unique (upstream : nat -> url_URL -> bool) (f1 f2 : nat)
    (c : call) (w w1 w2 : World) (o1 o2 : result unit) :
  run upstream f1 c w = (w1, Some o1) ->
  run upstream f2 c w = (w2, Some o2) ->
  w1 = w2 /\ o1 = o2.
Proof.
  intros H1 H2.
  apply (run_more_fuel _ _ f2) in H1. apply (run_more_fuel _ _ f1) in H2.
  rewrite Nat.add_comm, H1 in H2. now injection H2 as -> ->.
Qed.

(** C5, as amended.  A context without an attempts value counts as
    attempts [1].  A request whose attempts value exceeds [3] is answered
    service-unavailable at once: the pool is not consulted and not changed.
    In a pool whose records print pairwise distinct addresses, each with
    its proxy forwarding to its own address, and with at least three of
    them alive, a fresh request whose every round trip fails is routed to
    exactly three backends, all different, its round trips go to these
    three and to no other, and it is then answered service-unavailable. *)
Theorem attempts_cap (upstream : nat -> url_URL -> bool) :
  (forall r,
     context_Value (Context_of r) Attempts = None ->
     GetAttemptsFromContext r = 1) /\
  (forall r w,
     3 < GetAttemptsFromContext r ->
     lb r w
     = ({| pool := pool w;
           written := match written w with
                      | Some x => Some x
                      | None => Some unavailable
                      end;
           trace := trace w ++ [EvDispatch (Context_of r)];
           trips := trips w |}, Return)) /\
  (forall s fuel,
     registered s -> distinct_addresses s -> (3 <= alive_count s)%nat ->
     (forall t u, upstream t u = false) ->
     exists w p1 p2 p3 b1 b2 b3,
       run upstream (16 + fuel) (Call_lb fresh_request) (world_of s)
       = (w, Some (Ok tt)) /\
       written w = Some unavailable /\
       selections (trace w) = [Some p1; Some p2; Some p3] /\
       p1 ≠ p2 /\ p1 ≠ p3 /\ p2 ≠ p3 /\
       backends s !! p1 = Some b1 /\ backends s !! p2 = Some b2 /\
       backends s !! p3 = Some b3 /\
       forall u, u ∈ round_trips (trace w) <-> u ∈ [URL b1; URL b2; URL b3]).
Proof.
  split; [intros r H; unfold GetAttemptsFromContext; now rewrite H |].
  split; [intros r w H; now rewrite lb_guard |].
  intros s fuel Hreg Hnd Hcount Hdown.
  destruct (select_then_demote s Hreg Hnd ltac:(lia))
    as (p1 & b1 & s1 & Hsel1 & Hl1 & Hp1 & Hb1 & Hs2 & Hreg2 & Hnd2 & Hc2).
  cbn zeta in *.
  set (s2 := MarkBackendStatus s1 (serverUrl (ReverseProxy b1)) false) in *.
  destruct (select_then_demote s2 Hreg2 Hnd2 ltac:(lia))
    as (p2 & b2 & s3 & Hsel2 & Hl2 & Hp2 & Hb2 & Hs4 & Hreg4 & Hnd4 & Hc4).
  cbn zeta in *.
  set (s4 := MarkBackendStatus s3 (serverUrl (ReverseProxy b2)) false) in *.
  destruct (select_then_demote s4 Hreg4 Hnd4 ltac:(lia))
    as (p3 & b3 & s5 & Hsel3 & Hl3 & Hp3 & Hb3 & _).
  rewrite Hs4 in Hp3.
  destruct (alive_after_demotion _ _ _ _ _ Hp2 Hp3 Hb3) as [H32 Hp3'].
  rewrite Hs2 in Hp2, Hp3'.
  destruct (alive_after_demotion _ _ _ _ _ Hp1 Hp2 Hb2) as [H21 Hp2'].
  destruct (alive_after_demotion _ _ _ _ _ Hp1 Hp3' Hb3) as [H31 Hp3''].
  assert (Hu1 : serverUrl (ReverseProxy b1) = URL b1)
    by (apply Hreg; eapply list_elem_of_lookup_2, Hp1).
  assert (Hu2 : serverUrl (ReverseProxy b2) = URL b2)
    by (apply Hreg; eapply list_elem_of_lookup_2, Hp2').
  assert (Hu3 : serverUrl (ReverseProxy b3) = URL b3)
    by (apply Hreg; eapply list_elem_of_lookup_2, Hp3'').
  change (16 + fuel)%nat
    with (S (8 + S (2 + S (2 + S fuel)))).
  erewrite run_tail
    by (apply (lb_forward fresh_request (world_of s) s1 p1 b1);
        [vm_compute; discriminate | exact Hsel1 | exact Hl1]).
  unfold fresh_request.
  rewrite first_hop by (first [reflexivity | intros; apply Hdown]).
  cbn [emit set_pool pool written trace trips world_of]. fold s2.
  erewrite run_tail
    by (eapply lb_forward;
        [vm_compute; discriminate | cbn [pool]; exact Hsel2 | exact Hl2]).
  rewrite failover_round
    by (first [vm_compute; discriminate | apply Hdown]).
  cbn [emit set_pool pool written trace trips]. fold s4.
  erewrite run_tail
    by (eapply lb_forward;
        [vm_compute; discriminate | cbn [pool]; exact Hsel3 | exact Hl3]).
  rewrite failover_round
    by (first [vm_compute; discriminate | apply Hdown]).
  erewrite run_return by (apply lb_guard; vm_compute; reflexivity).
  eexists. exists p1, p2, p3, b1, b2, b3.
  split; [reflexivity |].
  unfold http_Error, emit, set_pool.
  cbn [pool written trace trips Context_of].
  rewrite Hu1, Hu2, Hu3.
  split; [reflexivity |]. split; [reflexivity |].
  repeat (split; [congruence |]).
  intros u. cbn. rewrite !elem_of_cons, !elem_of_nil. tauto.
Qed.

(** ** The retry count across a failover *)

(** C2: what the code does.  At the retry cap the error handler marks its
    backend dead and enters the dispatcher again with attempts one higher,
    but the context it passes on still holds the old retry count: the count
    is not reset, so the error handler of whichever backend is selected next
    fails over on that backend's first failure. *)
Theorem failover_keeps_retry_count (p : ReverseProxy_t) (r : Request)
    (w : World) :
  3 <= GetRetryFromContext r ->
  exists r',
    ErrorHandler p r w
    = ({| pool := MarkBackendStatus (pool w) (serverUrl p) false;
          written := written w;
          trace := trace w ++ [EvMarkBackendStatus (serverUrl p) false];
          trips := trips w |}, Tail (Call_lb r')) /\
    GetAttemptsFromContext r' = int_add (GetAttemptsFromContext r) 1 /\
    GetRetryFromContext r' = GetRetryFromContext r /\
    forall p2 w2, exists w2' r2, ErrorHandler p2 r' w2 = (w2', Tail (Call_lb r2)).
Proof.
  intros Hr.
  exists (WithContext r
            (context_WithValue (Context_of r) Attempts
               (int_add (GetAttemptsFromContext r) 1))).
  split; [now rewrite ErrorHandler_failover |].
  split; [reflexivity |].
  assert (Hsame : GetRetryFromContext
                    (WithContext r
                       (context_WithValue (Context_of r) Attempts
                          (int_add (GetAttemptsFromContext r) 1)))
                  = GetRetryFromContext r) by reflexivity.
  split; [exact Hsame |].
  intros p2 w2. do 2 eexists.
  apply ErrorHandler_failover. rewrite Hsame. exact Hr.
Qed.

(** ** Start-up *)

Lemma MarkBackendStatus_range_length (bs : list Backend) (u : url_URL)
    (alive : bool) :
  length (MarkBackendStatus_range bs u alive) = length bs.
Proof.
  induction bs as [|b bs IH]; [reflexivity |]. cbn [MarkBackendStatus_range].
  destruct (String.eqb _ _); cbn; congruence.
Qed.

(** No pool operation changes the number of backends. *)
Lemma pool_operations_keep_size (s : ServerPool) :
  (forall u alive,
     length (backends (MarkBackendStatus s u alive)) = length (backends s)) /\
  (forall Dial k,
     length (backends (fst (HealthCheck Dial k s))) = length (backends s)) /\
  backends (fst (GetNextPeer s)) = backends s.
Proof.
  split; [intros; apply MarkBackendStatus_range_length |]. split.
  - intros Dial k. unfold HealthCheck.
    pose proof (HealthCheck_range_backends Dial (backends s) k) as Hb.
    destruct (HealthCheck_range Dial k (backends s)) as [bs evs].
    cbn [fst backends] in *. rewrite Hb. apply length_imap.
  - destruct (backends s) as [|b bs] eqn:E.
    + unfold GetNextPeer. rewrite (NextIndex_empty s E). cbn. congruence.
    + rewrite <- E. apply GetNextPeer_result. congruence.
Qed.

(** C7: what the code does.  [main] never assigns [serverPool]: whenever it
    gets to serve, the pool is still the zero value, with no backend at all,
    whatever the configured list, and the first selection on it panics. *)
Theorem main_registers_no_backend (url_Parse : string -> option url_URL)
    (ListenAndServe : Z -> option string) (serverList : string) (port : Z)
    (s : ServerPool) (port' : Z) (h : ReverseProxy_t) :
  main url_Parse ListenAndServe serverList port = Serving s port' h ->
  backends s = [] /\ current s = 0 /\
  snd (GetNextPeer s) = Panic divide_error.
Proof.
  unfold main, main_range.
  destruct (String.length serverList =? 0)%nat; [discriminate |].
  destruct (strings_Split_comma serverList) as [|tok toks]; [discriminate |].
  destruct (url_Parse tok); [| discriminate].
  destruct (ListenAndServe port); [discriminate |].
  intros [= <- _ _]. repeat split; reflexivity.
Qed.

(** ** More on [MarkBackendStatus] *)

Lemma MarkBackendStatus_range_unknown (bs : list Backend) (u : url_URL)
    (alive : bool) :
  (forall b, b ∈ bs -> URL_String (URL b) ≠ URL_String u) ->
  MarkBackendStatus_range bs u alive = bs.
Proof.
  induction bs as [|b bs IH]; intros Hno; [reflexivity |].
  cbn [MarkBackendStatus_range].
  destruct (String.eqb_spec (URL_String (URL b)) (URL_String u)) as [E | _].
  - exfalso. exact (Hno b (list_elem_of_here _ _) E).
  - f_equal. apply IH. intros x Hx. apply Hno. now apply list_elem_of_further.
Qed.

(** X1.  [MarkBackendStatus] with an address that prints ([String]) like
    that of no backend of the pool changes nothing: no flag, no record, not
    the cursor. *)
Theorem MarkBackendStatus_unknown_address (s : ServerPool) (u : url_URL)
    (alive : bool) :
  (forall b, b ∈ backends s -> URL_String (URL b) ≠ URL_String u) ->
  MarkBackendStatus s u alive = s.
Proof.
  intros Hno. unfold MarkBackendStatus.
  rewrite (MarkBackendStatus_range_unknown _ _ _ Hno). now destruct s.
Qed.

Lemma MarkBackendStatus_range_first (bs : list Backend) (u : url_URL)
    (alive : bool) (i : nat) (b : Backend) :
  bs !! i = Some b ->
  URL_String (URL b) = URL_String u ->
  (forall j bj, (j < i)%nat -> bs !! j = Some bj ->
                URL_String (URL bj) ≠ URL_String u) ->
  MarkBackendStatus_range bs u alive = <[i := SetAlive b alive]> bs.
Proof.
  revert i. induction bs as [|b0 bs IH]; intros i Hi Hu Hfirst; [discriminate |].
  cbn [MarkBackendStatus_range]. destruct i as [|i]; cbn in Hi.
  - injection Hi as ->. rewrite Hu, String.eqb_refl. reflexivity.
  - destruct (String.eqb_spec (URL_String (URL b0)) (URL_String u)) as [E | _].
    + exfalso. apply (Hfirst 0%nat b0); [lia | reflexivity | exact E].
    + cbn. f_equal. apply IH; [assumption | assumption |].
      intros j bj Hj Hbj. apply (Hfirst (S j) bj); [lia | exact Hbj].
Qed.

(** X2.  [MarkBackendStatus] sets the flag of the first record whose address
    prints like the given one, and touches nothing else: later records with
    the same address keep their flag. *)
Theorem MarkBackendStatus_first_match (s : ServerPool) (u : url_URL)
    (alive : bool) (i : nat) (b : Backend) :
  backends s !! i = Some b ->
  URL_String (URL b) = URL_String u ->
  (forall j bj, (j < i)%nat -> backends s !! j = Some bj ->
                URL_String (URL bj) ≠ URL_String u) ->
  MarkBackendStatus s u alive
  = {| backends := <[i := SetAlive b alive]> (backends s);
       current := current s |}.
Proof.
  intros Hi Hu Hfirst. unfold MarkBackendStatus.
  now rewrite (MarkBackendStatus_range_first _ _ _ i b Hi Hu Hfirst).
Qed.

Lemma MarkBackendStatus_range_twice (bs : list Backend) (u : url_URL)
    (a a' : bool) :
  MarkBackendStatus_range (MarkBackendStatus_range bs u a) u a'
  = MarkBackendStatus_range bs u a'.
Proof.
  induction bs as [|b bs IH]; [reflexivity |].
  cbn [MarkBackendStatus_range].
  destruct (String.eqb (URL_String (URL b)) (URL_String u)) eqn:E;
    cbn [MarkBackendStatus_range SetAlive URL]; rewrite E;
    [reflexivity | now rewrite IH].
Qed.

(** X3.  Marking the same address twice leaves the pool as the second mark
    alone would: the last value wins, and repeating a mark changes nothing. *)
Theorem MarkBackendStatus_last_write_wins (s : ServerPool) (u : url_URL)
    (a a' : bool) :
  MarkBackendStatus (MarkBackendStatus s u a) u a' = MarkBackendStatus s u a' /\
  MarkBackendStatus (MarkBackendStatus s u a) u a = MarkBackendStatus s u a.
Proof.
  unfold MarkBackendStatus. cbn [backends current].
  now rewrite !MarkBackendStatus_range_twice.
Qed.

Lemma MarkBackendStatus_range_identity (bs : list Backend) (u : url_URL)
    (alive : bool) :
  map (fun b => (URL b, ReverseProxy b)) (MarkBackendStatus_range bs u alive)
  = map (fun b => (URL b, ReverseProxy b)) bs.
Proof.
  induction bs as [|b bs IH]; [reflexivity |]. cbn [MarkBackendStatus_range].
  destruct (String.eqb _ _); cbn; [reflexivity | now rewrite IH].
Qed.

Lemma HealthCheck_range_identity
    (Dial : nat -> string -> string -> Z -> option string)
    (bs : list Backend) (k : nat) :
  map (fun b => (URL b, ReverseProxy b)) (fst (HealthCheck_range Dial k bs))
  = map (fun b => (URL b, ReverseProxy b)) bs.
Proof.
  revert k. induction bs as [|b bs IH]; intros k; [reflexivity |].
  cbn [HealthCheck_range]. specialize (IH (S k)).
  destruct (isBackendAlive Dial k (URL b)) as [alive ev].
  destruct (HealthCheck_range Dial (S k) bs) as [rest evs].
  cbn in *. now rewrite IH.
Qed.

Lemma GetNextPeer_backends (s : ServerPool) :
  backends (fst (GetNextPeer s)) = backends s.
Proof.
  destruct (backends s) as [|b bs] eqn:E.
  - unfold GetNextPeer. rewrite (NextIndex_empty s E). cbn. congruence.
  - rewrite <- E. apply GetNextPeer_result. congruence.
Qed.

(** X4.  No pool operation adds, removes, reorders or readdresses a record:
    after [MarkBackendStatus], a health sweep or a selection the pool holds
    the same addresses and proxies in the same order. *)
Theorem pool_operations_keep_records (s : ServerPool) :
  (forall u alive,
     map (fun b => (URL b, ReverseProxy b))
       (backends (MarkBackendStatus s u alive))
     = map (fun b => (URL b, ReverseProxy b)) (backends s)) /\
  (forall Dial k,
     map (fun b => (URL b, ReverseProxy b))
       (backends (fst (HealthCheck Dial k s)))
     = map (fun b => (URL b, ReverseProxy b)) (backends s)) /\
  backends (fst (GetNextPeer s)) = backends s.
Proof.
  split; [intros; apply MarkBackendStatus_range_identity |].
  split; [| apply GetNextPeer_backends].
  intros Dial k. unfold HealthCheck.
  pose proof (HealthCheck_range_identity Dial (backends s) k) as H.
  destruct (HealthCheck_range Dial k (backends s)). exact H.
Qed.

(** ** More on the selection *)

Lemma no_backend_alive_iff (s : ServerPool) :
  no_backend_alive s <-> forall i, alive_at s i = false.
Proof.
  split; [intros H i; now apply no_backend_alive_at |].
  intros H b Hb. apply list_elem_of_lookup_1 in Hb. destruct Hb as [i Hi].
  specialize (H i). unfold alive_at in H. now rewrite Hi in H.
Qed.

(** X5.  On a non-empty pool a selection never returns a dead backend, and
    it returns [nil] exactly when no backend of the pool is alive. *)
Theorem GetNextPeer_alive_iff (s : ServerPool) :
  backends s ≠ [] ->
  (forall p, snd (GetNextPeer s) = Ok (Some p) ->
             exists b, backends s !! p = Some b /\ Alive b = true) /\
  (snd (GetNextPeer s) = Ok None <-> no_backend_alive s).
Proof.
  intros Hne. destruct (GetNextPeer_result s Hne) as [Hres _].
  rewrite Hres. split.
  - intros p [= Hp]. unfold nextLivePeer_spec in Hp. apply find_some in Hp.
    destruct Hp as [_ Hp]. unfold alive_at in Hp.
    destruct (backends s !! p) as [b|]; [eauto | discriminate].
  - split.
    + intros [= Hnone]. apply no_backend_alive_iff. intros i.
      destruct (backends s !! i) as [b|] eqn:Ei.
      * apply (find_none _ _ Hnone).
        apply list_elem_of_In, rotation_covers. eapply lookup_lt_Some, Ei.
      * unfold alive_at. now rewrite Ei.
    + intros Hdead. now rewrite (nextLivePeer_spec_none s Hdead).
Qed.

(** X6.  Whichever backend a selection returns, by the increment alone or
    by the store of the scan, the next selection starts its scan at the
    position after it (while the cursor is below [2^64 - 1]). *)
Theorem next_scan_starts_after_returned (s : ServerPool) (p : nat) :
  backends s ≠ [] ->
  snd (GetNextPeer s) = Ok (Some p) ->
  current (fst (GetNextPeer s)) < 2 ^ 64 - 1 ->
  start_index (fst (GetNextPeer s)) = (Z.of_nat p + 1) mod len s.
Proof.
  intros Hne. pose proof (len_pos s Hne) as Hpos.
  pose proof (start_index_range s Hne) as Hr.
  rewrite (GetNextPeer_unfold s Hne).
  destruct (first_alive_offset s) as [j|] eqn:Ej; [| discriminate].
  cbn [fst snd]. intros [= <-] Hlt. unfold start_index at 1.
  destruct (Nat.eqb_spec j 0) as [-> | Hj0].
  - rewrite (position_of_0 s Hne), Z2Nat.id by lia.
    change (len (incremented s)) with (len s). cbn [incremented current] in *.
    pose proof (Z.mod_pos_bound (current s + 1) uint64_mod eq_refl) as Hb.
    unfold uint64_mod in *. rewrite (Z.mod_small (_ + 1)) by lia.
    unfold start_index, uint64_mod. now rewrite Z.add_mod_idemp_l by lia.
  - change (len (atomic_StoreUint64 (incremented s)
                   (Z.of_nat (position_of s j)))) with (len s).
    cbn [atomic_StoreUint64 current] in *. unfold uint64_mod.
    rewrite (Z.mod_small (_ + 1)) by lia. reflexivity.
Qed.

(** ** Every dispatch ends *)

Lemma round_trips_app (e1 e2 : list event) :
  round_trips (e1 ++ e2) = round_trips e1 ++ round_trips e2.
Proof. apply omap_app. Qed.

Lemma backoffs_app (e1 e2 : list event) :
  backoffs (e1 ++ e2) = backoffs e1 ++ backoffs e2.
Proof. apply omap_app. Qed.

Lemma int_add_1_above (x : Z) : x < 2 ^ 63 - 1 -> x + 1 <= int_add x 1.
Proof.
  intros H. unfold int_add. cbn zeta.
  destruct (Z.geb_spec (x + 1) (2 ^ 63)); [lia |].
  destruct (Z.ltb_spec (x + 1) (- 2 ^ 63)); lia.
Qed.

Lemma call_budget_pos (c : call) : under_cap c -> (1 <= call_budget c)%nat.
Proof.
  destruct c as [r | p r | p r]; cbn; unfold attempts_left, retries_left.
  - destruct (Z.gtb_spec (GetAttemptsFromContext r) 3); lia.
  - lia.
  - lia.
Qed.

Lemma run_within_budget (upstream : nat -> url_URL -> bool) (n : nat) :
  forall c w,
    under_cap c -> (call_budget c <= n)%nat ->
    exists w' o evs,
      run upstream n c w = (w', Some o) /\
      trace w' = trace w ++ evs /\
      (length (round_trips evs) <= trip_budget c)%nat /\
      (length (backoffs evs) <= wait_budget c)%nat.
Proof.
  induction n as [|n IH]; intros c w Hcap Hb.
  - pose proof (call_budget_pos c Hcap). lia.
  - destruct c as [r | p r | p r]; cbn [run step].
    + unfold lb.
      cbn [call_budget trip_budget wait_budget] in *.
      destruct (Z.gtb_spec (GetAttemptsFromContext r) 3) as [Hgt | Hle].
      * exists (http_Error (emit w (EvDispatch (Context_of r)))
                  "servie not available" StatusServiceUnavailable),
          (Ok tt), [EvDispatch (Context_of r)].
        repeat split; cbn; lia.
      * destruct (GetNextPeer (pool (emit w (EvDispatch (Context_of r)))))
          as [s1 [[q|]|msg]].
        -- destruct (backends s1 !! q) as [b|].
           ++ destruct (IH (Call_ServeHTTP (ReverseProxy b) r)
                          (emit (set_pool (emit w (EvDispatch (Context_of r)))
                                   s1) (EvGetNextPeer (Some q))))
                as (w' & o & evs & Hrun & Htr & H1 & H2);
                [exact Hle | cbn [call_budget]; lia |].
              rewrite Hrun.
              exists w', o,
                ([EvDispatch (Context_of r); EvGetNextPeer (Some q)] ++ evs).
              split; [reflexivity |]. split.
              { rewrite Htr. cbn [emit set_pool trace].
                now rewrite <- !app_assoc. }
              rewrite round_trips_app, backoffs_app, !length_app.
              cbn [trip_budget wait_budget] in *. cbn. lia.
           ++ eexists _, _,
                [EvDispatch (Context_of r); EvGetNextPeer (Some q)].
              split; [reflexivity |]. split.
              { cbn [emit set_pool trace]. now rewrite <- !app_assoc. }
              cbn. lia.
        -- eexists _, _, [EvDispatch (Context_of r); EvGetNextPeer None].
           split; [reflexivity |]. split.
           { cbn [emit set_pool trace]. now rewrite <- !app_assoc. }
           cbn. lia.
        -- eexists _, _, [EvDispatch (Context_of r)].
           split; [reflexivity |]. split; [reflexivity |]. cbn. lia.
    + unfold ServeHTTP. cbn [call_budget trip_budget wait_budget under_cap] in *.
      assert (HA : (1 <= attempts_left r)%nat) by (unfold attempts_left; lia).
      destruct (upstream (trips w) (serverUrl p)).
      * eexists _, _, [EvRoundTrip (serverUrl p) (Context_of r)].
        split; [reflexivity |]. split; [reflexivity |]. cbn. lia.
      * cbn [emit pool written trace trips].
        destruct (IH (Call_ErrorHandler p r)
                    {| pool := pool w; written := written w;
                       trace := trace w
                                ++ [EvRoundTrip (serverUrl p) (Context_of r)];
                       trips := S (trips w) |})
          as (w' & o & evs & Hrun & Htr & H1 & H2);
          [exact Hcap | cbn [call_budget]; lia |].
        rewrite Hrun.
        exists w', o, ([EvRoundTrip (serverUrl p) (Context_of r)] ++ evs).
        split; [reflexivity |]. split.
        { rewrite Htr. cbn [trace]. now rewrite <- !app_assoc. }
        rewrite round_trips_app, backoffs_app, !length_app.
        cbn [trip_budget wait_budget] in *. cbn. lia.
    + unfold ErrorHandler.
      cbn [call_budget trip_budget wait_budget under_cap] in *.
      assert (HA : (1 <= attempts_left r)%nat) by (unfold attempts_left; lia).
      destruct (Z.ltb_spec (GetRetryFromContext r) 3) as [Hlt | Hge].
      * set (r' := WithContext r
                     (context_WithValue (Context_of r) Retry
                        (int_add (GetRetryFromContext r) 1))).
        assert (Ha' : GetAttemptsFromContext r' = GetAttemptsFromContext r)
          by reflexivity.
        assert (Ht' : GetRetryFromContext r'
                      = int_add (GetRetryFromContext r) 1) by reflexivity.
        pose proof (int_add_1_above (GetRetryFromContext r) ltac:(lia)) as Hup.
        assert (HT : (S (retries_left r') <= retries_left r)%nat)
          by (unfold retries_left; rewrite Ht'; lia).
        assert (HA' : attempts_left r' = attempts_left r)
          by (unfold attempts_left; now rewrite Ha').
        destruct (IH (Call_ServeHTTP p r')
                    (emit w (EvAfter (10 * time_Millisecond))))
          as (w' & o & evs & Hrun & Htr & H1 & H2);
          [cbn [under_cap]; lia | cbn [call_budget]; lia |].
        rewrite Hrun.
        exists w', o, ([EvAfter (10 * time_Millisecond)] ++ evs).
        split; [reflexivity |]. split.
        { rewrite Htr. cbn [emit trace]. now rewrite <- !app_assoc. }
        rewrite round_trips_app, backoffs_app, !length_app.
        cbn [trip_budget wait_budget] in *. cbn. lia.
      * set (r' := WithContext r
                     (context_WithValue (Context_of r) Attempts
                        (int_add (GetAttemptsFromContext r) 1))).
        assert (Ha' : GetAttemptsFromContext r'
                      = int_add (GetAttemptsFromContext r) 1) by reflexivity.
        assert (Ht' : GetRetryFromContext r' = GetRetryFromContext r)
          by reflexivity.
        pose proof (int_add_1_above (GetAttemptsFromContext r) ltac:(lia))
          as Hup.
        assert (HT : retries_left r' = 0%nat /\ retries_left r = 0%nat)
          by (unfold retries_left; rewrite Ht'; lia).
        assert (HA' : (S (attempts_left r') <= attempts_left r)%nat)
          by (unfold attempts_left; rewrite Ha'; lia).
        destruct (IH (Call_lb r')
                    (emit (set_pool w
                             (MarkBackendStatus (pool w) (serverUrl p) false))
                       (EvMarkBackendStatus (serverUrl p) false)))
          as (w' & o & evs & Hrun & Htr & H1 & H2); [exact I | |].
        { cbn [call_budget].
          destruct (Z.gtb_spec (GetAttemptsFromContext r') 3); lia. }
        rewrite Hrun.
        exists w', o, ([EvMarkBackendStatus (serverUrl p) false] ++ evs).
        split; [reflexivity |]. split.
        { rewrite Htr. cbn [emit set_pool trace]. now rewrite <- !app_assoc. }
        rewrite round_trips_app, backoffs_app, !length_app.
        cbn [trip_budget wait_budget] in *.
        destruct (Z.gtb_spec (GetAttemptsFromContext r') 3); cbn; lia.
Qed.

Lemma step_trace_waits (upstream : nat -> url_URL -> bool) (c : call)
    (w : World) :
  Forall (fun d => d = 10000000) (backoffs (trace w)) ->
  Forall (fun d => d = 10000000) (backoffs (trace (fst (step upstream c w)))).
Proof.
  intros H.
  assert (Hadd : forall e, backoffs [e] = [] \/ backoffs [e] = [10000000] ->
                           Forall (fun d => d = 10000000)
                             (backoffs (trace w ++ [e]))).
  { intros e He. rewrite backoffs_app. apply Forall_app. split; [exact H |].
    destruct He as [-> | ->]; repeat constructor. }
  destruct c as [r | p r | p r]; cbn [step].
  - unfold lb. destruct (GetAttemptsFromContext r >? 3).
    + cbn. apply Hadd. now left.
    + destruct (GetNextPeer (pool (emit w (EvDispatch (Context_of r)))))
        as [s1 [[q|]|msg]]; [destruct (backends s1 !! q) | |];
        cbn [fst emit set_pool trace];
        rewrite ?backoffs_app; repeat (apply Forall_app; split);
        first [exact H | constructor].
  - unfold ServeHTTP. destruct (upstream (trips w) (serverUrl p));
      cbn; apply Hadd; now left.
  - unfold ErrorHandler. destruct (GetRetryFromContext r <? 3);
      cbn; apply Hadd; [now right | now left].
Qed.

Lemma run_trace_waits (upstream : nat -> url_URL -> bool) (fuel : nat) :
  forall c w,
    Forall (fun d => d = 10000000) (backoffs (trace w)) ->
    Forall (fun d => d = 10000000)
      (backoffs (trace (fst (run upstream fuel c w)))).
Proof.
  induction fuel as [|fuel IH]; intros c w H; [exact H |].
  cbn [run]. pose proof (step_trace_waits upstream c w H) as Hs.
  destruct (step upstream c w) as [w1 [c1| |msg]]; cbn [fst] in *;
    [now apply IH | exact Hs | exact Hs].
Qed.

(** X7.  Every dispatch ends.  From [lb] with any request context, and from
    a proxy call for a request under the attempts cap, the chain of calls
    returns or panics within [call_budget] calls, and until then it makes at
    most [trip_budget] round trips and [wait_budget] waits: the two counters
    bound the re-entrant calls between [lb] and the error handler. *)
Theorem dispatch_terminates (upstream : nat -> url_URL -> bool) (c : call)
    (w : World) :
  under_cap c ->
  exists w' o evs,
    run upstream (call_budget c) c w = (w', Some o) /\
    trace w' = trace w ++ evs /\
    (length (round_trips evs) <= trip_budget c)%nat /\
    (length (backoffs evs) <= wait_budget c)%nat.
Proof.
  intros Hcap. now apply run_within_budget.
Qed.

(** X8.  Whatever the pool holds and whatever the backends answer, the
    handler ends for a fresh request within 16 calls, after at most 6 round
    trips and at most 3 waits, each of 10ms. *)
Theorem fresh_request_bounds (upstream : nat -> url_URL -> bool)
    (s : ServerPool) :
  exists w o,
    run upstream 16 (Call_lb fresh_request) (world_of s) = (w, Some o) /\
    (length (round_trips (trace w)) <= 6)%nat /\
    (length (backoffs (trace w)) <= 3)%nat /\
    Forall (fun d => d = 10000000) (backoffs (trace w)).
Proof.
  destruct (run_within_budget upstream 16 (Call_lb fresh_request)
              (world_of s) I)
    as (w & o & evs & Hrun & Htr & H1 & H2); [vm_compute; lia |].
  exists w, o. split; [exact Hrun |].
  cbn [world_of trace app] in Htr. rewrite Htr.
  split; [exact H1 |]. split; [exact H2 |].
  rewrite <- Htr.
  pose proof (run_trace_waits upstream 16 (Call_lb fresh_request)
                (world_of s) ltac:(constructor)) as Hw.
  now rewrite Hrun in Hw.
Qed.

(** ** Dispatch and the prober *)

Lemma MarkBackendStatus_range_dead_alive (bs : list Backend) (u : url_URL)
    (i : nat) (b : Backend) :
  MarkBackendStatus_range bs u false !! i = Some b -> Alive b = true ->
  bs !! i = Some b.
Proof.
  revert i. induction bs as [|b0 bs IH]; intros i Hi Hb; [discriminate |].
  cbn [MarkBackendStatus_range] in Hi.
  destruct (String.eqb (URL_String (URL b0)) (URL_String u)).
  - destruct i as [|i]; cbn in *; [| exact Hi].
    injection Hi as <-. discriminate Hb.
  - destruct i as [|i]; cbn in *; [exact Hi | now apply IH].
Qed.

Lemma step_only_demotes (upstream : nat -> url_URL -> bool) (c : call)
    (w : World) :
  records (pool (fst (step upstream c w))) = records (pool w) /\
  forall i b, backends (pool (fst (step upstream c w))) !! i = Some b ->
              Alive b = true -> backends (pool w) !! i = Some b.
Proof.
  destruct c as [r | p r | p r]; cbn [step].
  - unfold lb. destruct (GetAttemptsFromContext r >? 3); [cbn; auto |].
    pose proof (GetNextPeer_backends
                  (pool (emit w (EvDispatch (Context_of r))))) as Hbs.
    destruct (GetNextPeer (pool (emit w (EvDispatch (Context_of r)))))
      as [s1 [[q|]|msg]]; [destruct (backends s1 !! q) | |];
      cbn [fst emit set_pool pool] in *; unfold records; rewrite Hbs; auto.
  - unfold ServeHTTP. destruct (upstream (trips w) (serverUrl p)); cbn; auto.
  - unfold ErrorHandler. destruct (GetRetryFromContext r <? 3); [cbn; auto |].
    cbn [fst emit set_pool pool]. split.
    + apply MarkBackendStatus_range_identity.
    + intros i b. apply MarkBackendStatus_range_dead_alive.
Qed.

Lemma run_only_demotes (upstream : nat -> url_URL -> bool) (fuel : nat) :
  forall c w,
    records (pool (fst (run upstream fuel c w))) = records (pool w) /\
    forall i b, backends (pool (fst (run upstream fuel c w))) !! i = Some b ->
                Alive b = true -> backends (pool w) !! i = Some b.
Proof.
  induction fuel as [|fuel IH]; intros c w; [cbn; auto |].
  cbn [run]. destruct (step_only_demotes upstream c w) as [Hrec Halive].
  destruct (step upstream c w) as [w1 [c1| |msg]]; cbn [fst] in *; auto.
  destruct (IH c1 w1) as [Hrec1 Halive1]. split; [congruence | eauto].
Qed.

(** X9.  A dispatch only ever demotes.  However far the chain of calls of a
    request has run, the pool holds the same addresses and proxies in the
    same order, and every backend that is alive then was alive before with
    the same record: the policy never marks a backend alive. *)
Theorem dispatch_only_demotes (upstream : nat -> url_URL -> bool)
    (fuel : nat) (c : call) (w : World) :
  records (pool (fst (run upstream fuel c w))) = records (pool w) /\
  forall i b, backends (pool (fst (run upstream fuel c w))) !! i = Some b ->
              Alive b = true -> backends (pool w) !! i = Some b.
Proof. apply run_only_demotes. Qed.

Lemma HealthCheck_range_records
    (Dial : nat -> string -> string -> Z -> option string)
    (bs bs' : list Backend) (k : nat) :
  map (fun b => (URL b, ReverseProxy b)) bs
  = map (fun b => (URL b, ReverseProxy b)) bs' ->
  HealthCheck_range Dial k bs = HealthCheck_range Dial k bs'.
Proof.
  revert bs' k. induction bs as [|b bs IH]; intros [|b' bs'] k H;
    try discriminate; [reflexivity |].
  cbn in H. injection H as Hu Hp Hrest.
  cbn [HealthCheck_range]. rewrite Hu, (IH bs' (S k) Hrest).
  destruct (isBackendAlive Dial k (URL b')) as [alive ev].
  destruct (HealthCheck_range Dial (S k) bs') as [rest evs].
  unfold SetAlive. now rewrite Hu, Hp.
Qed.

Lemma HealthCheck_records
    (Dial : nat -> string -> string -> Z -> option string)
    (s s' : ServerPool) (k : nat) :
  records s = records s' ->
  backends (fst (HealthCheck Dial k s)) = backends (fst (HealthCheck Dial k s'))
  /\ snd (HealthCheck Dial k s) = snd (HealthCheck Dial k s').
Proof.
  intros H. unfold HealthCheck.
  rewrite (HealthCheck_range_records Dial _ _ k H).
  destruct (HealthCheck_range Dial k (backends s')). auto.
Qed.

(** X10.  A health sweep overwrites whatever was marked before it: the
    flags and the dials of a sweep are the same after a [MarkBackendStatus],
    and after any stretch of the call chain of a request, as without it. *)
Theorem HealthCheck_forgets_marks
    (Dial : nat -> string -> string -> Z -> option string) (k : nat)
    (s : ServerPool) :
  (forall u alive,
     HealthCheck Dial k (MarkBackendStatus s u alive) = HealthCheck Dial k s) /\
  (forall upstream fuel c w,
     pool w = s ->
     backends (fst (HealthCheck Dial k (pool (fst (run upstream fuel c w)))))
     = backends (fst (HealthCheck Dial k s)) /\
     snd (HealthCheck Dial k (pool (fst (run upstream fuel c w))))
     = snd (HealthCheck Dial k s)).
Proof.
  split.
  - intros u alive. unfold HealthCheck, MarkBackendStatus. cbn [backends current].
    now rewrite (HealthCheck_range_records Dial _ (backends s) k
                   (MarkBackendStatus_range_identity (backends s) u alive)).
  - intros upstream fuel c w <-. apply HealthCheck_records.
    apply run_only_demotes.
Qed.

Lemma GetNextPeer_Some_alive (s : ServerPool) (p : nat) :
  snd (GetNextPeer s) = Ok (Some p) -> alive_at s p = true.
Proof.
  intros Hsel. destruct (backends s) as [|b0 bs0] eqn:E.
  - unfold GetNextPeer in Hsel. rewrite (NextIndex_empty s E) in Hsel.
    discriminate.
  - assert (Hne : backends s ≠ []) by congruence.
    rewrite (proj1 (GetNextPeer_result s Hne)) in Hsel.
    injection Hsel as Hp. unfold nextLivePeer_spec in Hp.
    apply find_some in Hp. now destruct Hp.
Qed.

(** X11.  After a health sweep a selection only returns a backend whose
    dial in that sweep succeeded; a backend whose dial failed is not
    selected until a later sweep marks it alive again. *)
Theorem selection_after_sweep
    (Dial : nat -> string -> string -> Z -> option string) (k : nat)
    (s : ServerPool) (p : nat) :
  snd (GetNextPeer (fst (HealthCheck Dial k s))) = Ok (Some p) ->
  exists b,
    backends s !! p = Some b /\
    Dial (k + p)%nat "tcp" (Host (URL b)) 2000000000 = None.
Proof.
  intros Hsel. apply GetNextPeer_Some_alive in Hsel.
  pose proof (HealthCheck_range_backends Dial (backends s) k) as Hb.
  unfold HealthCheck in Hsel.
  destruct (HealthCheck_range Dial k (backends s)) as [bs evs].
  cbn [fst] in *. unfold alive_at in Hsel. cbn [backends] in Hsel.
  rewrite Hb, list_lookup_imap in Hsel.
  destruct (backends s !! p) as [b|]; [| discriminate].
  exists b. split; [reflexivity |]. cbn in Hsel.
  change 2000000000 with (2 * time_Second).
  now destruct (Dial (k + p)%nat "tcp" (Host (URL b)) (2 * time_Second)).
Qed.

(** ** The ticker loop *)

Lemma HealthCheck_length
    (Dial : nat -> string -> string -> Z -> option string) (k : nat)
    (s : ServerPool) :
  length (backends (fst (HealthCheck Dial k s))) = length (backends s).
Proof.
  unfold HealthCheck.
  pose proof (HealthCheck_range_backends Dial (backends s) k) as Hb.
  destruct (HealthCheck_range Dial k (backends s)) as [bs evs].
  cbn [fst backends] in *. rewrite Hb. apply length_imap.
Qed.

Lemma HealthCheck_keeps_records
    (Dial : nat -> string -> string -> Z -> option string) (k : nat)
    (s : ServerPool) :
  records (fst (HealthCheck Dial k s)) = records s.
Proof.
  unfold HealthCheck, records.
  pose proof (HealthCheck_range_identity Dial (backends s) k) as H.
  destruct (HealthCheck_range Dial k (backends s)). exact H.
Qed.

Lemma HealthCheck_dials
    (Dial : nat -> string -> string -> Z -> option string) (k : nat)
    (s : ServerPool) :
  dials (snd (HealthCheck Dial k s))
  = map (fun b => ("tcp", Host (URL b), 2 * time_Second)) (backends s).
Proof.
  unfold HealthCheck.
  pose proof (HealthCheck_range_dials Dial (backends s) k) as H.
  destruct (HealthCheck_range Dial k (backends s)). exact H.
Qed.

Lemma dials_records (s s' : ServerPool) :
  records s = records s' ->
  map (fun b => ("tcp", Host (URL b), 2 * time_Second)) (backends s)
  = map (fun b => ("tcp", Host (URL b), 2 * time_Second)) (backends s').
Proof.
  unfold records. intros H.
  assert (E : forall bs : list Backend,
             map (fun b => ("tcp", Host (URL b), 2 * time_Second)) bs
             = map (fun x : url_URL * ReverseProxy_t =>
                      ("tcp", Host (fst x), 2 * time_Second))
                 (map (fun b => (URL b, ReverseProxy b)) bs))
    by (intros bs; now rewrite map_map).
  now rewrite !E, H.
Qed.

Lemma dials_app (e1 e2 : list event) : dials (e1 ++ e2) = dials e1 ++ dials e2.
Proof. apply omap_app. Qed.

(** X12.  The ticker loop keeps no history.  After [n + 1] firings the
    flags of the pool are those of the last sweep alone, each sweep has
    dialled every backend once in pool order, and the cursor is where it
    was. *)
Theorem healthCheck_last_sweep
    (Dial : nat -> string -> string -> Z -> option string) (n k : nat)
    (s : ServerPool) :
  backends (fst (healthCheck Dial (S n) k s))
  = backends (fst (HealthCheck Dial (k + n * length (backends s)) s)) /\
  current (fst (healthCheck Dial (S n) k s)) = current s /\
  dials (snd (healthCheck Dial (S n) k s))
  = mjoin (replicate (S n)
             (map (fun b => ("tcp", Host (URL b), 2000000000)) (backends s))).
Proof.
  revert k s. induction n as [|n IH]; intros k s.
  - cbn [healthCheck]. rewrite Nat.mul_0_l, Nat.add_0_r.
    pose proof (HealthCheck_dials Dial k s) as Hd.
    pose proof (HealthCheck_current Dial k s) as Hc.
    destruct (HealthCheck Dial k s) as [s1 evs]. cbn [fst snd] in *.
    rewrite app_nil_r, Hd. cbn. now rewrite app_nil_r.
  - change (healthCheck Dial (S (S n)) k s)
      with (let '(s1, evs) := HealthCheck Dial k s in
            let '(s2, evs') :=
              healthCheck Dial (S n) (k + length (backends s)) s1 in
            (s2, evs ++ evs')).
    pose proof (HealthCheck_dials Dial k s) as Hd.
    pose proof (HealthCheck_current Dial k s) as Hc.
    pose proof (HealthCheck_length Dial k s) as Hl.
    pose proof (HealthCheck_keeps_records Dial k s) as Hr.
    destruct (HealthCheck Dial k s) as [s1 evs]. cbn [fst snd] in *.
    destruct (IH (k + length (backends s))%nat s1) as (Hb1 & Hc1 & Hd1).
    destruct (healthCheck Dial (S n) (k + length (backends s)) s1)
      as [s2 evs'].
    cbn [fst snd] in *. split; [| split].
    + rewrite Hb1, Hl.
      replace (k + length (backends s) + n * length (backends s))%nat
        with (k + S n * length (backends s))%nat by lia.
      now apply HealthCheck_records.
    + congruence.
    + rewrite dials_app, Hd, Hd1.
      change 2000000000 with (2 * time_Second).
      rewrite (dials_records s1 s Hr). reflexivity.
Qed.

(** ** Start-up and the first request *)

Lemma strings_Split_comma_head (a rest : string) :
  no_comma a = true ->
  strings_Split_comma (a +:+ "," +:+ rest) = a :: strings_Split_comma rest.
Proof.
  induction a as [|c a IH]; intros Ha; [reflexivity |].
  cbn [no_comma] in Ha. apply andb_true_iff in Ha. destruct Ha as [Hc Ha].
  apply negb_true_iff in Hc.
  change (String c a +:+ "," +:+ rest) with (String c (a +:+ "," +:+ rest)).
  cbn [strings_Split_comma]. now rewrite Hc, (IH Ha).
Qed.

Lemma strings_Split_comma_single (a : string) :
  no_comma a = true -> strings_Split_comma a = [a].
Proof.
  induction a as [|c a IH]; intros Ha; [reflexivity |].
  cbn [no_comma] in Ha. apply andb_true_iff in Ha. destruct Ha as [Hc Ha].
  apply negb_true_iff in Hc.
  cbn [strings_Split_comma]. now rewrite Hc, (IH Ha).
Qed.

(** X13.  [main] only ever looks at the first backend of the list: whatever
    follows the first comma, it parses, proxies and serves as if the list
    held the first address alone. *)
Theorem main_uses_first_token_only (url_Parse : string -> option url_URL)
    (ListenAndServe : Z -> option string) (a rest : string) (port : Z) :
  a ≠ EmptyString -> no_comma a = true ->
  main url_Parse ListenAndServe (a +:+ "," +:+ rest) port
  = main url_Parse ListenAndServe a port.
Proof.
  intros Hne Ha. unfold main.
  rewrite (strings_Split_comma_head a rest Ha),
    (strings_Split_comma_single a Ha).
  destruct a as [|c a]; [congruence |]. reflexivity.
Qed.

(** X14.  The server [main] starts cannot answer: on the pool it serves
    with, [lb] panics with a division by zero for every request under the
    attempts cap, a fresh one included, before anything is written. *)
Theorem served_pool_panics (url_Parse : string -> option url_URL)
    (ListenAndServe : Z -> option string) (serverList : string) (port : Z)
    (s : ServerPool) (port' : Z) (h : ReverseProxy_t)
    (upstream : nat -> url_URL -> bool) (r : Request) (fuel : nat) :
  main url_Parse ListenAndServe serverList port = Serving s port' h ->
  GetAttemptsFromContext r <= 3 ->
  exists w,
    run upstream (S fuel) (Call_lb r) (world_of s)
    = (w, Some (Panic divide_error)) /\
    written w = None.
Proof.
  unfold main, main_range.
  destruct (String.length serverList =? 0)%nat; [discriminate |].
  destruct (strings_Split_comma serverList) as [|tok toks]; [discriminate |].
  destruct (url_Parse tok); [| discriminate].
  destruct (ListenAndServe port); [discriminate |].
  intros [= <- _ _] Hle. cbn [run step]. unfold lb.
  destruct (Z.gtb_spec (GetAttemptsFromContext r) 3); [lia |].
  eexists. split; reflexivity.
Qed.

(** ** Requests that are served *)

Section Served.

Variable upstream : nat -> url_URL -> bool.

Lemma ServeHTTP_ok (p : ReverseProxy_t) (r : Request) (w : World) :
  upstream (trips w) (serverUrl p) = true ->
  ServeHTTP upstream p r w
  = ({| pool := pool w;
        written := match written w with
                   | Some x => Some x
                   | None => Some (UpstreamReply (serverUrl p))
                   end;
        trace := trace w ++ [EvRoundTrip (serverUrl p) (Context_of r)];
        trips := S (trips w) |}, Return).
Proof.
  intros H. unfold ServeHTTP. rewrite H. reflexivity.
Qed.

Lemma lb_selects (r : Request) (w : World) (p : nat) (b : Backend) :
  GetAttemptsFromContext r <= 3 ->
  snd (GetNextPeer (pool w)) = Ok (Some p) ->
  backends (pool w) !! p = Some b ->
  lb r w
  = (emit (set_pool (emit w (EvDispatch (Context_of r)))
             (fst (GetNextPeer (pool w))))
       (EvGetNextPeer (Some p)),
     Tail (Call_ServeHTTP (ReverseProxy b) r)).
Proof.
  intros Hle Hsel Hb. apply lb_forward; [exact Hle | |].
  - rewrite (GetNextPeer_pair (pool w)) at 1. now rewrite Hsel.
  - now rewrite GetNextPeer_backends.
Qed.

(** X15.  Blips are absorbed.  When the backend selected for a fresh request
    fails its first [k <= 3] round trips and answers the next one, the client
    gets that backend's reply after [k] waits of 10ms, every round trip went
    to that backend, and no backend of the pool was touched. *)
Theorem transient_failures_are_absorbed (s : ServerPool) (p : nat)
    (b : Backend) (k fuel : nat) :
  snd (GetNextPeer s) = Ok (Some p) ->
  backends s !! p = Some b ->
  (k <= 3)%nat ->
  (forall j, (j < k)%nat -> upstream j (serverUrl (ReverseProxy b)) = false) ->
  upstream k (serverUrl (ReverseProxy b)) = true ->
  exists w,
    run upstream (2 * k + 2 + fuel) (Call_lb fresh_request) (world_of s)
    = (w, Some (Ok tt)) /\
    written w = Some (UpstreamReply (serverUrl (ReverseProxy b))) /\
    backends (pool w) = backends s /\
    backoffs (trace w) = replicate k 10000000 /\
    round_trips (trace w) = replicate (S k) (serverUrl (ReverseProxy b)).
Proof.
  intros Hsel Hb Hk Hdown Hup.
  pose proof (GetNextPeer_backends s) as Hbs.
  assert (Hstep : lb fresh_request (world_of s)
                  = (emit (set_pool (emit (world_of s) (EvDispatch []))
                             (fst (GetNextPeer s)))
                       (EvGetNextPeer (Some p)),
                     Tail (Call_ServeHTTP (ReverseProxy b) fresh_request)))
    by (apply (lb_selects fresh_request (world_of s) p b);
        [vm_compute; discriminate | exact Hsel | exact Hb]).
  destruct k as [|[|[|[|k]]]]; [| | | | lia].
  - change (2 * 0 + 2 + fuel)%nat with (S (S fuel)).
    erewrite run_tail by exact Hstep.
    erewrite run_return by (apply ServeHTTP_ok; exact Hup).
    eexists. split; [reflexivity |]. cbn. now rewrite Hbs.
  - change (2 * 1 + 2 + fuel)%nat with (S (2 + S fuel)).
    erewrite run_tail by exact Hstep.
    rewrite retry_round
      by (first [vm_compute; reflexivity
                | cbn [trips emit set_pool world_of]; apply Hdown; lia]).
    erewrite run_return by (apply ServeHTTP_ok; exact Hup).
    eexists. split; [reflexivity |]. cbn. now rewrite Hbs.
  - change (2 * 2 + 2 + fuel)%nat with (S (2 + (2 + S fuel))).
    erewrite run_tail by exact Hstep.
    rewrite retry_round
      by (first [vm_compute; reflexivity
                | cbn [trips emit set_pool world_of]; apply Hdown; lia]).
    rewrite retry_round
      by (first [vm_compute; reflexivity
                | cbn [trips emit set_pool world_of]; apply Hdown; lia]).
    erewrite run_return by (apply ServeHTTP_ok; exact Hup).
    eexists. split; [reflexivity |]. cbn. now rewrite Hbs.
  - change (2 * 3 + 2 + fuel)%nat with (S (2 + (2 + (2 + S fuel)))).
    erewrite run_tail by exact Hstep.
    rewrite retry_round
      by (first [vm_compute; reflexivity
                | cbn [trips emit set_pool world_of]; apply Hdown; lia]).
    rewrite retry_round
      by (first [vm_compute; reflexivity
                | cbn [trips emit set_pool world_of]; apply Hdown; lia]).
    rewrite retry_round
      by (first [vm_compute; reflexivity
                | cbn [trips emit set_pool world_of]; apply Hdown; lia]).
    erewrite run_return by (apply ServeHTTP_ok; exact Hup).
    eexists. split; [reflexivity |]. cbn. now rewrite Hbs.
Qed.

End Served.

(** X16.  One bad backend does not cost a request.  In a pool whose
    records print pairwise distinct addresses, each with its proxy
    forwarding to its own address, where the round trips to the backend at one position fail,
    those to every other backend succeed and some other backend is alive, a
    fresh request is answered by an alive backend other than the bad one,
    within 11 calls, and no record but the bad backend's can have changed. *)
Theorem one_bad_backend_still_served (upstream : nat -> url_URL -> bool)
    (s : ServerPool) (q : nat) (bq : Backend) (fuel : nat) :
  registered s -> distinct_addresses s ->
  backends s !! q = Some bq ->
  (forall t p b, backends s !! p = Some b ->
                 (upstream t (URL b) = false <-> p = q)) ->
  (exists i b, i ≠ q /\ backends s !! i = Some b /\ Alive b = true) ->
  exists w p b,
    run upstream (11 + fuel) (Call_lb fresh_request) (world_of s)
    = (w, Some (Ok tt)) /\
    written w = Some (UpstreamReply (URL b)) /\
    backends s !! p = Some b /\ Alive b = true /\ p ≠ q /\
    forall i, i ≠ q -> backends (pool w) !! i = backends s !! i.
Proof.
  intros Hreg Hnd Hq Hbad (i & bi & Hiq & Hi & Hbi).
  assert (Hgood : forall t p b, backends s !! p = Some b -> p ≠ q ->
                                upstream t (serverUrl (ReverseProxy b)) = true).
  { intros t p b Hp Hpq.
    rewrite (Hreg b) by (eapply list_elem_of_lookup_2, Hp).
    destruct (upstream t (URL b)) eqn:E; [reflexivity |].
    apply (Hbad t p b Hp) in E. contradiction. }
  destruct (GetNextPeer_alive s i bi Hi Hbi) as (p1 & b1 & Hsel1 & Hbs1 & Hp1 & Hb1).
  assert (Hstep1 : lb fresh_request (world_of s)
                   = (emit (set_pool (emit (world_of s) (EvDispatch []))
                              (fst (GetNextPeer s)))
                        (EvGetNextPeer (Some p1)),
                      Tail (Call_ServeHTTP (ReverseProxy b1) fresh_request)))
    by (apply (lb_selects fresh_request (world_of s) p1 b1);
        [vm_compute; discriminate | exact Hsel1 | exact Hp1]).
  destruct (decide (p1 = q)) as [-> | Hp1q].
  - assert (b1 = bq) as -> by congruence.
    assert (Hdown : forall t, upstream t (serverUrl (ReverseProxy bq)) = false).
    { intros t. rewrite (Hreg bq) by (eapply list_elem_of_lookup_2, Hq).
      now apply (Hbad t q bq Hq). }
    set (s1 := fst (GetNextPeer s)) in *.
    assert (Hreg1 : registered s1) by (eapply registered_backends; eauto).
    assert (Hnd1 : distinct_addresses s1)
      by (eapply distinct_addresses_backends; eauto).
    assert (Hq1 : backends s1 !! q = Some bq) by now rewrite Hbs1.
    pose proof (MarkBackendStatus_own s1 q bq Hreg1 Hnd1 Hq1) as Hmark.
    set (s2 := MarkBackendStatus s1 (serverUrl (ReverseProxy bq)) false) in *.
    assert (Hs2 : backends s2 = <[q := SetAlive bq false]> (backends s))
      by (rewrite Hmark; cbn; now rewrite Hbs1).
    assert (Hi2 : backends s2 !! i = Some bi)
      by (rewrite Hs2, list_lookup_insert_ne by congruence; exact Hi).
    destruct (GetNextPeer_alive s2 i bi Hi2 Hbi)
      as (p2 & b2 & Hsel2 & Hbs2 & Hp2 & Hb2).
    rewrite Hs2 in Hp2.
    destruct (alive_after_demotion _ _ _ _ _ Hq Hp2 Hb2) as [Hp2q Hp2s].
    change (11 + fuel)%nat with (S (8 + S (S fuel))).
    erewrite run_tail by exact Hstep1.
    unfold fresh_request.
    rewrite first_hop by (first [reflexivity | exact Hdown]).
    cbn [emit set_pool pool written trace trips world_of]. fold s2.
    erewrite run_tail
      by (apply lb_selects;
          [vm_compute; discriminate | cbn [pool]; exact Hsel2
          | cbn [pool]; rewrite Hs2; exact Hp2]).
    erewrite run_return by (apply ServeHTTP_ok; now apply (Hgood _ p2)).
    eexists. exists p2, b2. split; [reflexivity |].
    cbn [emit set_pool pool written trace trips].
    rewrite (Hreg b2) by (eapply list_elem_of_lookup_2, Hp2s).
    repeat split; try assumption.
    intros j Hj. rewrite Hbs2, Hs2. now apply list_lookup_insert_ne.
  - change (11 + fuel)%nat with (S (S (9 + fuel))).
    erewrite run_tail by exact Hstep1.
    erewrite run_return by (apply ServeHTTP_ok; now apply (Hgood _ p1)).
    eexists. exists p1, b1. split; [reflexivity |].
    cbn [emit set_pool pool written trace trips world_of].
    rewrite (Hreg b1) by (eapply list_elem_of_lookup_2, Hp1).
    repeat split; try assumption.
    intros j _. now rewrite Hbs1.
Qed.

(** ** Selection among dead backends *)

(** X17.  When a single backend of the pool is alive, every selection
    returns it, wherever the cursor stands. *)
Theorem sole_alive_backend_is_selected (s : ServerPool) (p : nat)
    (b : Backend) :
  backends s !! p = Some b -> Alive b = true ->
  (forall i bi, i ≠ p -> backends s !! i = Some bi -> Alive bi = false) ->
  snd (GetNextPeer s) = Ok (Some p).
Proof.
  intros Hp Hb Hothers.
  destruct (GetNextPeer_alive s p b Hp Hb) as (p' & b' & Hsel & _ & Hp' & Hb').
  destruct (decide (p' = p)) as [-> | Hne]; [exact Hsel |].
  rewrite (Hothers p' b' Hne Hp') in Hb'. discriminate.
Qed.

(** X18.  On a fully alive pool the selections follow the cursor: [k] calls
    in a row return the positions [cursor + 1], ..., [cursor + k] modulo the
    pool size, in this order, and leave the cursor [k] higher, as long as
    it does not wrap around [2^64]. *)
Theorem round_robin_order (k : nat) (s : ServerPool) :
  backends s ≠ [] -> fully_alive s ->
  0 <= current s -> current s + Z.of_nat k < 2 ^ 64 ->
  GetNextPeer_times k s
  = ({| backends := backends s; current := current s + Z.of_nat k |},
     Ok (map (fun j => Some (Z.to_nat ((current s + 1 + Z.of_nat j)
                                        mod len s)))
             (seq 0 k))).
Proof.
  intros Hne Hall Hc Hk.
  rewrite (GetNextPeer_times_fully_alive k s Hne Hall Hc Hk).
  do 2 f_equal. apply map_ext. intros j. f_equal.
  pose proof (len_pos s Hne). unfold len in *.
  rewrite Z2Nat.inj_mod, Nat2Z.id by lia. f_equal. lia.
Qed.

(** X19.  A backend just marked dead is not selected: after
    [MarkBackendStatus] with the value false, no selection returns the
    first backend whose address prints ([String]) like the given one,
    whatever the cursor. *)
Theorem demoted_backend_is_not_selected (s : ServerPool) (u : url_URL)
    (p : nat) (b : Backend) :
  backends s !! p = Some b ->
  URL_String (URL b) = URL_String u ->
  (forall j bj, (j < p)%nat -> backends s !! j = Some bj ->
                URL_String (URL bj) ≠ URL_String u) ->
  snd (GetNextPeer (MarkBackendStatus s u false)) ≠ Ok (Some p).
Proof.
  intros Hp Hu Hfirst Hsel. apply GetNextPeer_Some_alive in Hsel.
  unfold alive_at, MarkBackendStatus in Hsel. cbn [backends] in Hsel.
  rewrite (MarkBackendStatus_range_first _ _ _ p b Hp Hu Hfirst) in Hsel.
  rewrite list_lookup_insert_eq in Hsel by (eapply lookup_lt_Some, Hp).
  discriminate.
Qed.

(** ** Connections of the prober *)

Lemma HealthCheck_range_closes
    (Dial : nat -> string -> string -> Z -> option string)
    (bs : list Backend) (k : nat) :
  closes (snd (HealthCheck_range Dial k bs))
  = map (fun b => Host (URL b))
      (filter (fun b => Alive b = true) (fst (HealthCheck_range Dial k bs))).
Proof.
  revert k. induction bs as [|b bs IH]; intros k; [reflexivity |].
  cbn [HealthCheck_range]. unfold isBackendAlive. specialize (IH (S k)).
  destruct (HealthCheck_range Dial (S k) bs) as [rest evs].
  cbn [fst snd] in IH.
  destruct (Dial k "tcp" (Host (URL b)) (2 * time_Second)); cbn [fst snd].
  - rewrite filter_cons_False by (cbn; discriminate).
    unfold closes in *. cbn [app omap list_omap]. exact IH.
  - rewrite filter_cons_True by reflexivity.
    unfold closes in *. cbn [app omap list_omap map SetAlive URL].
    now rewrite IH.
Qed.

(** X20.  The prober closes what it opens: in a sweep the connections
    closed are, in pool order, exactly those to the backends the sweep
    marked alive, and a failed dial leaves nothing to close. *)
Theorem HealthCheck_closes_what_it_opens
    (Dial : nat -> string -> string -> Z -> option string) (k : nat)
    (s : ServerPool) :
  closes (snd (HealthCheck Dial k s))
  = map (fun b => Host (URL b))
      (filter (fun b => Alive b = true)
         (backends (fst (HealthCheck Dial k s)))).
Proof.
  unfold HealthCheck.
  pose proof (HealthCheck_range_closes Dial (backends s) k) as H.
  destruct (HealthCheck_range Dial k (backends s)). exact H.
Qed.

End Properties.

(** * Worked examples, witnesses and counterexamples *)

Section SampleRuns.

#[local] Existing Instance sample_net.

Example scenario_A :
  GetNextPeer (pool3 true true false 0)
  = (pool3 true true false 1, Ok (Some 1%nat)).
Proof. reflexivity. Qed.

Example scenario_A_skip :
  GetNextPeer (pool3 true false false 0)
  = (pool3 true false false 0, Ok (Some 0%nat)).
Proof. reflexivity. Qed.

Lemma GetNextPeer_first_alive_witness :
  let s := pool3 false false true 0 in
  snd (GetNextPeer s) = Ok (Some 2%nat) /\
  current (fst (GetNextPeer s)) = 2 /\
  first_alive_from s 1 (Some 2%nat) /\
  current (fst (GetNextPeer (pool3 true true true 0))) = 1.
Proof.
  intros s.
  assert (Hne : backends s ≠ []) by discriminate.
  destruct (GetNextPeer_first_alive s Hne)
    as (_ & Hres & _ & Hcur & Hfirst & _).
  split; [exact Hres |]. split; [exact Hcur |]. split; [exact Hfirst |].
  assert (Hne' : backends (pool3 true true true 0) ≠ []) by discriminate.
  destruct (GetNextPeer_first_alive (pool3 true true true 0) Hne')
    as (_ & _ & _ & Hcur' & _).
  exact Hcur'.
Defined.

Lemma GetNextPeer_defined_iff_nonempty_witness :
  snd (GetNextPeer serverPool_zero) = Panic divide_error /\
  exists peer, snd (GetNextPeer (pool3 true true true 0)) = Ok peer.
Proof.
  split.
  - apply (proj1 (GetNextPeer_defined_iff_nonempty serverPool_zero)).
    reflexivity.
  - destruct (proj2 (GetNextPeer_defined_iff_nonempty (pool3 true true true 0)))
      as (next & _ & _ & _ & peer & Hpeer & _); [discriminate |].
    exists peer. exact Hpeer.
Defined.

Lemma pool3_fully_alive (c : Z) : fully_alive (pool3 true true true c).
Proof.
  intros b Hb. cbn in Hb.
  repeat (apply elem_of_cons in Hb as [-> | Hb]; [reflexivity |]).
  now apply elem_of_nil in Hb.
Qed.

Lemma round_robin_coverage_without_wraparound_witness :
  round_robin_coverage (pool3 true true true 7).
Proof.
  apply (round_robin_coverage_without_wraparound (pool3 true true true 7)).
  - discriminate.
  - apply pool3_fully_alive.
  - vm_compute. discriminate.
  - vm_compute. reflexivity.
Defined.

(** C6, as stated, fails when the cursor wraps: from cursor [2^64 - 2] three
    selections on three alive backends return positions [0], [0] and [1]. *)
Lemma round_robin_coverage_fails_at_wraparound :
  let s := pool3 true true true (2 ^ 64 - 2) in
  fully_alive s /\ is_uint64 (current s) /\
  snd (GetNextPeer_times 3 s) = Ok [Some 0; Some 0; Some 1]%nat /\
  ~ round_robin_coverage s.
Proof.
  intros s. split; [apply pool3_fully_alive |].
  split; [unfold is_uint64; cbn; lia |].
  split; [vm_compute; reflexivity |].
  intros (l & Hl & Hperm).
  assert (Hrun : snd (GetNextPeer_times 3 s) = Ok [Some 0; Some 0; Some 1]%nat)
    by (vm_compute; reflexivity).
  change (length (backends s)) with 3%nat in Hl, Hperm.
  rewrite Hrun in Hl. injection Hl as Hl.
  destruct l as [|a [|b [|c [|d l]]]]; try discriminate Hl.
  injection Hl as <- <- <-.
  assert (H2 : 2%nat ∈ [0; 0; 1]%nat).
  { rewrite Hperm. cbn. do 2 apply list_elem_of_further. apply list_elem_of_here. }
  repeat (apply elem_of_cons in H2 as [H2 | H2]; [discriminate H2 |]).
  now apply elem_of_nil in H2.
Qed.

Lemma cursor_after_pool_operations_witness :
  current (fst (GetNextPeer (pool3 true true true 4))) = 5.
Proof.
  assert (Hne : backends (pool3 true true true 4) ≠ []) by discriminate.
  assert (Hc : is_uint64 (current (pool3 true true true 4)))
    by (split; [vm_compute; discriminate | vm_compute; reflexivity]).
  destruct (cursor_after_pool_operations _ Hne Hc)
    as (_ & _ & _ & _ & _ & Hgrow).
  apply Hgrow; [vm_compute; reflexivity | left; reflexivity].
Defined.

(** C8, as stated, fails: with the cursor at [5] and the start backend dead,
    the scan stores the winning position [1] in the cursor. *)
Lemma cursor_decreases_on_store :
  let s := pool3 false true true 5 in
  is_uint64 (current s) /\
  GetNextPeer s = (pool3 false true true 1, Ok (Some 1%nat)) /\
  ~ cursor_not_decreased s.
Proof.
  intros s. split; [split; [vm_compute; discriminate | vm_compute; reflexivity] |].
  split; [reflexivity |].
  unfold cursor_not_decreased. vm_compute. intros H. apply H. reflexivity.
Qed.

Lemma single_backend_gets_no_reply_witness :
  exists w,
    run all_down 10 (Call_lb fresh_request) (world_of (pool1 0))
    = (w, Some (Ok tt)) /\ written w = None.
Proof.
  destruct (single_backend_gets_no_reply all_down (backend_of u1 true) 0 0)
    as (w & Hrun & Hw & _); [reflexivity | reflexivity | reflexivity |].
  exists w. split; [exact Hrun | exact Hw].
Defined.

Lemma pool3_registered (a1 a2 a3 : bool) (c : Z) :
  registered (pool3 a1 a2 a3 c).
Proof.
  intros b Hb. cbn in Hb.
  repeat (apply elem_of_cons in Hb as [-> | Hb]; [reflexivity |]).
  now apply elem_of_nil in Hb.
Qed.

Lemma pool3_distinct (a1 a2 a3 : bool) (c : Z) :
  distinct_addresses (pool3 a1 a2 a3 c).
Proof.
  unfold distinct_addresses. cbn.
  repeat (apply NoDup_cons; split;
          [rewrite ?not_elem_of_cons; repeat split;
           first [discriminate | apply not_elem_of_nil] |]).
  apply NoDup_nil_2.
Qed.

Lemma attempts_cap_witness :
  (exists w,
     lb (mkRequest [(Attempts, 4)]) (world_of (pool3 true true true 0))
     = (w, Return) /\
     written w = Some unavailable /\
     pool w = pool3 true true true 0) /\
  (exists w,
     run all_down 16 (Call_lb fresh_request)
       (world_of (pool3 true true true 0))
     = (w, Some (Ok tt)) /\
     written w = Some unavailable /\
     selections (trace w) = [Some 1; Some 2; Some 0]%nat).
Proof.
  split.
  - eexists. split.
    + apply (proj1 (proj2 (attempts_cap all_down))). vm_compute. reflexivity.
    + split; reflexivity.
  - destruct (proj2 (proj2 (attempts_cap all_down))
                (pool3 true true true 0) 0%nat)
      as (w & p1 & p2 & p3 & b1 & b2 & b3 & Hrun & Hw & Hsel & _).
    + apply pool3_registered.
    + apply pool3_distinct.
    + vm_compute. lia.
    + reflexivity.
    + exists w. split; [exact Hrun |]. split; [exact Hw |].
      change (16 + 0)%nat with 16%nat in Hrun.
      assert (Hw' : w = fst (run all_down 16 (Call_lb fresh_request)
                               (world_of (pool3 true true true 0))))
        by now rewrite Hrun.
      rewrite Hw'. vm_compute. reflexivity.
Defined.

(** C5, as stated, fails on a pool of two: both backends are demoted, the
    third dispatch finds no peer and the handler ends without a reply. *)
Lemma two_backends_end_without_reply :
  registered (pool2 0) /\ distinct_addresses (pool2 0) /\
  (exists w,
     run all_down 13 (Call_lb fresh_request) (world_of (pool2 0))
     = (w, Some (Ok tt)) /\
     written w = None /\
     selections (trace w) = [Some 1; Some 0; None]%nat /\
     round_trips (trace w) = [u2; u2; u2; u2; u1]) /\
  ~ answered_unavailable all_down (pool2 0).
Proof.
  assert (Hrun : exists w,
             run all_down 13 (Call_lb fresh_request) (world_of (pool2 0))
             = (w, Some (Ok tt)) /\
             written w = None /\
             selections (trace w) = [Some 1; Some 0; None]%nat /\
             round_trips (trace w) = [u2; u2; u2; u2; u1]).
  { eexists. split; [vm_compute; reflexivity |]. repeat split. }
  split.
  { intros b Hb. cbn in Hb.
    repeat (apply elem_of_cons in Hb as [-> | Hb]; [reflexivity |]).
    now apply elem_of_nil in Hb. }
  split.
  { unfold distinct_addresses. cbn.
    repeat (apply NoDup_cons; split;
            [rewrite ?not_elem_of_cons; repeat split;
             first [discriminate | apply not_elem_of_nil] |]).
    apply NoDup_nil_2. }
  split; [exact Hrun |].
  destruct Hrun as (w13 & Hrun & Hnone & _).
  intros (fuel & w & Hfuel & Hw).
  destruct (run_outcome_unique _ _ _ _ _ _ _ _ _ Hrun Hfuel) as [<- _].
  rewrite Hnone in Hw. discriminate.
Qed.

Lemma failover_keeps_retry_count_witness :
  exists r',
    snd (ErrorHandler (mkProxy u2) (mkRequest [(Retry, 3)])
           (world_of (pool2 1)))
    = Tail (Call_lb r') /\
    GetRetryFromContext r' = 3.
Proof.
  destruct (failover_keeps_retry_count (mkProxy u2) (mkRequest [(Retry, 3)])
              (world_of (pool2 1)))
    as (r' & Hstep & _ & Hretry & _); [vm_compute; discriminate |].
  exists r'. split; [now rewrite Hstep | exact Hretry].
Defined.

(** C4: what the code does.  On two alive backends that fail every round
    trip, the backend selected first is retried three times, each after a
    wait of 10ms, and demoted at its fourth failure; the backend selected by
    the failover makes one round trip and is demoted at once, without a wait
    and without a retry. *)
Theorem later_backend_gets_no_retry :
  run all_down 13 (Call_lb fresh_request) (world_of (pool2 0))
  = ({| pool := {| backends := [backend_of u1 false; backend_of u2 false];
                   current := 3 |};
        written := None;
        trace :=
          [EvDispatch [];
           EvGetNextPeer (Some 1%nat);
           EvRoundTrip u2 [];
           EvAfter 10000000;
           EvRoundTrip u2 [(Retry, 1)];
           EvAfter 10000000;
           EvRoundTrip u2 [(Retry, 2); (Retry, 1)];
           EvAfter 10000000;
           EvRoundTrip u2 [(Retry, 3); (Retry, 2); (Retry, 1)];
           EvMarkBackendStatus u2 false;
           EvDispatch failed_over_ctx;
           EvGetNextPeer (Some 0%nat);
           EvRoundTrip u1 failed_over_ctx;
           EvMarkBackendStatus u1 false;
           EvDispatch ((Attempts, 3) :: failed_over_ctx);
           EvGetNextPeer None];
        trips := 5 |}, Some (Ok tt)).
Proof. vm_compute. reflexivity. Qed.

Lemma main_registers_no_backend_witness :
  main parse_http serve_forever
    "http://localhost:3031,http://localhost:3032" 3030
  = Serving serverPool_zero 3030 (mkProxy u1) /\
  backends serverPool_zero = [].
Proof.
  split; [reflexivity |].
  apply (main_registers_no_backend parse_http serve_forever
           "http://localhost:3031,http://localhost:3032" 3030
           serverPool_zero 3030 (mkProxy u1)).
  reflexivity.
Defined.

Lemma MarkBackendStatus_unknown_address_witness :
  MarkBackendStatus (pool3 true true true 4) u9 false = pool3 true true true 4.
Proof.
  apply (MarkBackendStatus_unknown_address (pool3 true true true 4) u9 false).
  intros b Hb. cbn in Hb.
  repeat (apply elem_of_cons in Hb as [-> | Hb]; [vm_compute; discriminate |]).
  now apply elem_of_nil in Hb.
Defined.

Lemma MarkBackendStatus_first_match_witness :
  MarkBackendStatus (pool_twins 0) u2 false
  = {| backends := [backend_of u1 true; backend_of u2 false;
                    backend_of u2 true];
       current := 0 |}.
Proof.
  apply (MarkBackendStatus_first_match (pool_twins 0) u2 false 1
           (backend_of u2 true)).
  - reflexivity.
  - reflexivity.
  - intros j bj Hj Hbj. destruct j as [|j]; [| lia].
    cbn in Hbj. injection Hbj as <-. vm_compute. discriminate.
Defined.

Lemma GetNextPeer_alive_iff_witness :
  (exists b, backends (pool3 false false true 0) !! 2%nat = Some b /\
             Alive b = true) /\
  snd (GetNextPeer (pool3 false false false 0)) = Ok None.
Proof.
  split.
  - apply (proj1 (GetNextPeer_alive_iff (pool3 false false true 0)
                    ltac:(discriminate))).
    reflexivity.
  - apply (proj2 (GetNextPeer_alive_iff (pool3 false false false 0)
                    ltac:(discriminate))).
    intros b Hb. cbn in Hb.
    repeat (apply elem_of_cons in Hb as [-> | Hb]; [reflexivity |]).
    now apply elem_of_nil in Hb.
Defined.

Lemma next_scan_starts_after_returned_witness :
  start_index (fst (GetNextPeer (pool3 false false true 6))) = 0.
Proof.
  apply (next_scan_starts_after_returned (pool3 false false true 6) 2).
  - discriminate.
  - reflexivity.
  - vm_compute. reflexivity.
Defined.

Lemma dispatch_terminates_witness :
  exists w' o evs,
    run all_down 11 (Call_ServeHTTP (mkProxy u1) (mkRequest [(Retry, 2)]))
      (world_of (pool3 true true true 0))
    = (w', Some o) /\
    trace w' = [] ++ evs /\
    (length (round_trips evs) <= 4)%nat /\
    (length (backoffs evs) <= 1)%nat.
Proof.
  apply (dispatch_terminates all_down
           (Call_ServeHTTP (mkProxy u1) (mkRequest [(Retry, 2)]))
           (world_of (pool3 true true true 0))).
  vm_compute. discriminate.
Defined.

Lemma dispatch_only_demotes_witness :
  records (pool (fst (run all_down 13 (Call_lb fresh_request)
                        (world_of (pool2 0)))))
  = records (pool2 0).
Proof.
  apply (proj1 (dispatch_only_demotes all_down 13 (Call_lb fresh_request)
                  (world_of (pool2 0)))).
Defined.

Lemma HealthCheck_forgets_marks_witness :
  HealthCheck dial_u2_down 0 (MarkBackendStatus (pool3 true true true 0) u1 false)
  = HealthCheck dial_u2_down 0 (pool3 true true true 0) /\
  backends (fst (HealthCheck dial_u2_down 0
                   (pool (fst (run all_down 13 (Call_lb fresh_request)
                                 (world_of (pool2 0)))))))
  = backends (fst (HealthCheck dial_u2_down 0 (pool2 0))).
Proof.
  split.
  - apply (proj1 (HealthCheck_forgets_marks dial_u2_down 0
                    (pool3 true true true 0))).
  - apply (proj2 (HealthCheck_forgets_marks dial_u2_down 0 (pool2 0))
             all_down 13%nat (Call_lb fresh_request) (world_of (pool2 0))).
    reflexivity.
Defined.

Lemma selection_after_sweep_witness :
  exists b,
    backends (pool3 true true true 0) !! 2%nat = Some b /\
    dial_u2_down 2 "tcp" (Host (URL b)) 2000000000 = None.
Proof.
  apply (selection_after_sweep dial_u2_down 0 (pool3 true true true 0) 2).
  reflexivity.
Defined.

Lemma main_uses_first_token_only_witness :
  main parse_http serve_forever
    "http://localhost:3031,http://localhost:3032,no url" 3030
  = main parse_http serve_forever "http://localhost:3031" 3030.
Proof.
  apply (main_uses_first_token_only parse_http serve_forever
           "http://localhost:3031" "http://localhost:3032,no url" 3030).
  - discriminate.
  - reflexivity.
Defined.

Lemma served_pool_panics_witness :
  exists w,
    run all_down 1 (Call_lb fresh_request) (world_of serverPool_zero)
    = (w, Some (Panic divide_error)) /\
    written w = None.
Proof.
  apply (served_pool_panics parse_http serve_forever
           "http://localhost:3031,http://localhost:3032" 3030
           serverPool_zero 3030 (mkProxy u1) all_down fresh_request 0).
  - reflexivity.
  - vm_compute. discriminate.
Defined.

Lemma transient_failures_are_absorbed_witness :
  exists w,
    run two_blips 6 (Call_lb fresh_request) (world_of (pool3 true true true 0))
    = (w, Some (Ok tt)) /\
    written w = Some (UpstreamReply u2) /\
    backends (pool w) = backends (pool3 true true true 0) /\
    backoffs (trace w) = [10000000; 10000000] /\
    round_trips (trace w) = [u2; u2; u2].
Proof.
  apply (transient_failures_are_absorbed two_blips (pool3 true true true 0) 1
           (backend_of u2 true) 2 0).
  - reflexivity.
  - reflexivity.
  - lia.
  - intros j Hj. unfold two_blips. apply Nat.leb_gt. exact Hj.
  - reflexivity.
Defined.

Lemma pool3_position_cases (a1 a2 a3 : bool) (c : Z) (i : nat) (b : Backend) :
  backends (pool3 a1 a2 a3 c) !! i = Some b ->
  (i = 0%nat /\ b = backend_of u1 a1) \/ (i = 1%nat /\ b = backend_of u2 a2) \/
  (i = 2%nat /\ b = backend_of u3 a3).
Proof.
  destruct i as [|[|[|i]]]; cbn; intros [= <-]; auto.
Qed.

Lemma one_bad_backend_still_served_witness :
  exists w p b,
    run u2_down 11 (Call_lb fresh_request) (world_of (pool3 true true true 0))
    = (w, Some (Ok tt)) /\
    written w = Some (UpstreamReply (URL b)) /\
    backends (pool3 true true true 0) !! p = Some b /\ p ≠ 1%nat.
Proof.
  destruct (one_bad_backend_still_served u2_down (pool3 true true true 0) 1
              (backend_of u2 true) 0)
    as (w & p & b & Hrun & Hw & Hp & _ & Hpq & _).
  - apply pool3_registered.
  - apply pool3_distinct.
  - reflexivity.
  - intros t p b Hp.
    destruct (pool3_position_cases _ _ _ _ _ _ Hp)
      as [[-> ->] | [[-> ->] | [-> ->]]];
      (split; [vm_compute; intros E; first [reflexivity | discriminate E]
              | intros E; first [reflexivity | discriminate E]]).
  - exists 0%nat, (backend_of u1 true). repeat split. discriminate.
  - exists w, p, b. auto.
Defined.

Lemma sole_alive_backend_is_selected_witness :
  snd (GetNextPeer (pool3 false false true 41)) = Ok (Some 2%nat).
Proof.
  apply (sole_alive_backend_is_selected (pool3 false false true 41) 2
           (backend_of u3 true)).
  - reflexivity.
  - reflexivity.
  - intros i bi Hi Hbi.
    destruct (pool3_position_cases _ _ _ _ _ _ Hbi)
      as [[-> ->] | [[-> ->] | [-> ->]]]; [reflexivity | reflexivity |].
    congruence.
Defined.

Lemma round_robin_order_witness :
  snd (GetNextPeer_times 5 (pool3 true true true 0))
  = Ok [Some 1; Some 2; Some 0; Some 1; Some 2]%nat.
Proof.
  rewrite (round_robin_order 5 (pool3 true true true 0)).
  - reflexivity.
  - discriminate.
  - apply pool3_fully_alive.
  - vm_compute. discriminate.
  - vm_compute. reflexivity.
Defined.

Lemma demoted_backend_is_not_selected_witness :
  snd (GetNextPeer (MarkBackendStatus (pool3 true true true 0) u2 false))
  ≠ Ok (Some 1%nat).
Proof.
  apply (demoted_backend_is_not_selected (pool3 true true true 0) u2 1
           (backend_of u2 true)).
  - reflexivity.
  - reflexivity.
  - intros j bj Hj Hbj. destruct j as [|j]; [| lia].
    cbn in Hbj. injection Hbj as <-. vm_compute. discriminate.
Defined.

End SampleRuns.
